(** * Unused JavaScript summary: a shallow embedding of
      [lighthouse-core/computed/unused-javascript-summary.js]

  Integer-valued JavaScript numbers (offsets, counts, lengths, columns) are
  [Z]; a number that may be [NaN] or [undefined] is an [option Z].  The only
  arithmetic that leaves the integers is the ratio of [mergeWaste], which is
  carried out on IEEE 754 binary64 values ([spec_float], precision 53).  The
  object in which [createSourceWastedBytes] counts is a plain object with the
  prototype [Object.prototype], whose properties a source name can hit. *)

From Stdlib Require Import ZArith Lia Bool List Ascii String Sorted Permutation.
From Stdlib Require Import Floats.SpecFloat.
From stdpp Require Import base list strings.

Open Scope Z_scope.

(** ** Coverage input and waste data *)

Module Coverage.

(** [LH.Crdp.Profiler.CoverageRange] *)
Record Range := mkRange {
  startOffset : Z;
  endOffset : Z;
  count : Z;
}.

(** [LH.Crdp.Profiler.FunctionCoverage], reduced to the field the code reads *)
Record FunctionCoverage := mkFunction {
  ranges : list Range;
}.

(** [LH.Crdp.Profiler.ScriptCoverage], reduced to the field the code reads *)
Record ScriptCoverage := mkScript {
  functions : list FunctionCoverage;
}.

Definition allRanges (c : ScriptCoverage) : list Range :=
  flat_map ranges (functions c).

End Coverage.
Export Coverage.

(** ** [Uint8Array] *)

Module Uint8Array.

(** [new Uint8Array(n)]: [n] zero bytes ([n] is never negative where the code
    calls it). *)
Definition make (n : Z) : list Z := replicate (Z.to_nat n) 0.

(** [a[i]]: [undefined] outside of [0 .. length-1]. *)
Definition get (a : list Z) (i : Z) : option Z :=
  if 0 <=? i then a !! Z.to_nat i else None.

(** [a[i] = v]: a write outside of [0 .. length-1] is dropped. *)
Definition set (a : list Z) (i : Z) (v : Z) : list Z :=
  if 0 <=? i then <[Z.to_nat i := v]> a else a.

End Uint8Array.

(** The integers [lo, lo+1, ..., lo+n-1]. *)
Definition seqZ' (lo : Z) (n : nat) : list Z :=
  map (fun k => lo + Z.of_nat k) (seq 0 n).

(** The values taken by [i] in [for (let i = lo; i < hi; i++)]. *)
Definition upto (lo hi : Z) : list Z := seqZ' lo (Z.to_nat (hi - lo)).

Record WasteData := mkWasteData {
  unusedByIndex : list Z;
  unusedLength : Z;
  contentLength : Z;
}.

(** [Math.max(acc, ...xs)] *)
Definition Math_max (acc : Z) (xs : list Z) : Z := fold_left Z.max xs acc.

(** Inner loop of [computeWaste]: [unusedByIndex[i] = 1] for [i] from
    [startOffset] up to [endOffset - 1]. *)
Definition markRange (unusedByIndex : list Z) (range : Range) : list Z :=
  if count range =? 0 then
    fold_left (fun a i => Uint8Array.set a i 1)
              (upto (startOffset range) (endOffset range)) unusedByIndex
  else unusedByIndex.

Definition computeWaste (scriptCoverage : ScriptCoverage) : WasteData :=
  let maximumEndOffset :=
    fold_left (fun m func => Math_max m (map endOffset (ranges func)))
              (functions scriptCoverage) 0 in
  let unusedByIndex :=
    fold_left (fun a func => fold_left markRange (ranges func) a)
              (functions scriptCoverage) (Uint8Array.make maximumEndOffset) in
  let unused := fold_left (fun unused x => unused + x) unusedByIndex 0 in
  {| unusedByIndex := unusedByIndex;
     unusedLength := unused;
     contentLength := maximumEndOffset |}.

(** ** JavaScript numbers that are not integers

  IEEE 754 binary64, as the standard library specifies it ([spec_float]).
  Integer sums below [2^53] are exact in this format (lemma [add_exact]), so
  the model adds the lengths in [Z] and converts at the division. *)

Module Number.

Definition number := spec_float.

Definition prec : Z := 53.
Definition emax : Z := 1024.

Definition of_Z (z : Z) : number := binary_normalize prec emax z 0 false.

Definition zero : number := S754_zero false.

Definition add : number -> number -> number := SFadd prec emax.
Definition div : number -> number -> number := SFdiv prec emax.
Definition mul : number -> number -> number := SFmul prec emax.

(** [ToBoolean]: [0], [-0] and [NaN] are falsy. *)
Definition truthy (x : number) : bool :=
  match x with
  | S754_zero _ | S754_nan => false
  | _ => true
  end.

(** [x || y] *)
Definition or (x y : number) : number := if truthy x then x else y.

Definition is_finite (x : number) : bool :=
  match x with
  | S754_zero _ | S754_finite _ _ _ => true
  | _ => false
  end.

(** [Math.round]: the integer nearest to [x], ties towards [+Infinity];
    the sign of [x] is kept when the result is zero. *)
Definition Math_round (x : number) : number :=
  match x with
  | S754_finite s m e =>
      if 0 <=? e then x
      else
        let d := 2 ^ (- e) in
        let twice := (if s then - (2 * Z.pos m) else 2 * Z.pos m) + d in
        let r := twice / (2 * d) in
        if r =? 0 then S754_zero s else of_Z r
  | _ => x
  end.

End Number.
Import Number.

(** ** Numbers that may be [NaN] or [undefined]

  [None] stands for both: every use below (addition, comparison, indexing)
  treats them alike. *)

Module Num.

Definition t := option Z.

(** [x + k] *)
Definition add (x : t) (k : Z) : t := (fun v => v + k) <$> x.

(** [x - k] *)
Definition sub (x : t) (k : Z) : t := (fun v => v - k) <$> x.

Definition truthy (x : t) : bool :=
  match x with
  | Some v => negb (v =? 0)
  | None => false
  end.

(** [x || y] *)
Definition or (x y : t) : t := if truthy x then x else y.

End Num.

(** ** Plain objects used as string-keyed records

  An object created by [{}].  Its own properties are listed in the order in
  which [Object.entries] and [for-in] enumerate them: first the keys that are
  array indices, in ascending numeric order, then the other keys in the order
  of their creation.  Its prototype is [Object.prototype]: a read of a key
  that the object does not have finds the property of that name there, and a
  write of such a key goes through the setter when the inherited property is
  an accessor. *)

Module JSObject.

(** The primitive values that the code stores in a property: a number, or a
    string once [+ 1] has been applied to something that is not a number. *)
Inductive value : Type :=
  | VNum (n : Z)
  | VStr (s : string).

Definition t := list (string * value).

Definition digit (c : Ascii.ascii) : option Z :=
  let n := Z.of_nat (nat_of_ascii c) in
  if (48 <=? n) && (n <=? 57) then Some (n - 48) else None.

Fixpoint digits (s : string) (acc : Z) : option Z :=
  match s with
  | EmptyString => Some acc
  | String c s' =>
      match digit c with
      | Some d => digits s' (10 * acc + d)
      | None => None
      end
  end.

(** A key is an array index when it is the canonical decimal form of an
    integer in [0 .. 2^32 - 2]. *)
Definition arrayIndex (k : string) : option Z :=
  match k with
  | EmptyString => None
  | String c rest =>
      if Ascii.eqb c "0"%char && negb (String.eqb rest EmptyString) then None
      else match digits k 0 with
           | Some n => if n <? 2 ^ 32 - 1 then Some n else None
           | None => None
           end
  end.

(** The own property [k] of [o], if there is one. *)
Fixpoint getOwn (o : t) (k : string) : option value :=
  match o with
  | [] => None
  | (k', v) :: o' => if String.eqb k k' then Some v else getOwn o' k
  end.

(** The properties of [Object.prototype]: built-in functions, and the
    accessor [__proto__], whose getter yields the prototype of the object it
    is read from and whose setter ignores a value that is not an object. *)
Inductive inherited : Type :=
  | Builtin (name : string)
  | Accessor.

Definition objectPrototype (k : string) : option inherited :=
  if String.eqb k "constructor" then Some (Builtin "Object")
  else if existsb (String.eqb k)
            ["hasOwnProperty"; "isPrototypeOf"; "propertyIsEnumerable";
             "toLocaleString"; "toString"; "valueOf";
             "__defineGetter__"; "__defineSetter__";
             "__lookupGetter__"; "__lookupSetter__"]%string
       then Some (Builtin k)
  else if String.eqb k "__proto__" then Some Accessor
  else None.

(** What a read [o[k]] evaluates to. *)
Inductive result : Type :=
  | Value (v : value)
  | Function (name : string)
  | ObjectPrototype
  | Undefined.

(** [o[k]] *)
Definition get (o : t) (k : string) : result :=
  match getOwn o k with
  | Some v => Value v
  | None =>
      match objectPrototype k with
      | Some (Builtin name) => Function name
      | Some Accessor => ObjectPrototype
      | None => Undefined
      end
  end.

(** [ToBoolean]: [undefined], [0] and the empty string are falsy, every
    object is truthy. *)
Definition truthy (x : result) : bool :=
  match x with
  | Value (VNum n) => negb (n =? 0)
  | Value (VStr s) => negb (String.eqb s EmptyString)
  | Function _ | ObjectPrototype => true
  | Undefined => false
  end.

(** The string that a built-in function converts to. *)
Definition sourceText (name : string) : string :=
  String.append "function " (String.append name "() { [native code] }").

(** [(x || 0) + 1]: a falsy [x] counts as [0]; a number is incremented; to a
    string, [+ 1] appends the character [1]; an object is converted to a
    string first, a built-in function to its source text and
    [Object.prototype] to [[object Object]]. *)
Definition orZeroPlusOne (x : result) : value :=
  if truthy x then
    match x with
    | Value (VNum n) => VNum (n + 1)
    | Value (VStr s) => VStr (String.append s "1")
    | Function name => VStr (String.append (sourceText name) "1")
    | ObjectPrototype => VStr (String.append "[object Object]" "1")
    | Undefined => VNum (0 + 1)
    end
  else VNum (0 + 1).

Fixpoint replace (k : string) (v : value) (o : t) : t :=
  match o with
  | [] => []
  | (k', v') :: o' =>
      if String.eqb k k' then (k', v) :: o' else (k', v') :: replace k v o'
  end.

(** A new array-index key goes before the first key that is not an array
    index or is a larger one. *)
Fixpoint insertIndex (n : Z) (k : string) (v : value) (o : t) : t :=
  match o with
  | [] => [(k, v)]
  | (k', v') :: o' =>
      match arrayIndex k' with
      | Some n' =>
          if n <? n' then (k, v) :: o else (k', v') :: insertIndex n k v o'
      | None => (k, v) :: o
      end
  end.

(** [o[k] = v] for a primitive [v].  An own property is overwritten where it
    is.  Otherwise the key is looked up in [Object.prototype]: for
    [__proto__] the setter found there is called, which ignores a primitive
    and leaves the object as it is; for any other key (the built-in functions
    are writable data properties) a new own property is created. *)
Definition set (k : string) (v : value) (o : t) : t :=
  match getOwn o k with
  | Some _ => replace k v o
  | None =>
      match objectPrototype k with
      | Some Accessor => o
      | _ =>
          match arrayIndex k with
          | Some n => insertIndex n k v o
          | None => o ++ [(k, v)]
          end
      end
  end.

(** [Object.entries(o)] *)
Definition entries (o : t) : list (string * value) := o.

(** [x - y] on stored values: the difference of two numbers, and [NaN]
    (here [None]) when one of them is a string; the strings that [+ 1] makes
    of the properties of [Object.prototype] are not numeric literals. *)
Definition sub (x y : value) : Num.t :=
  match x, y with
  | VNum a, VNum b => Some (a - b)
  | _, _ => None
  end.

End JSObject.

(** ** [Array.prototype.sort] with a comparator: a stable sort

  A comparator result of [NaN] (here [None]) is read as [+0].  The order is
  fixed by the language for a consistent comparator, as the one of
  [createSourceWastedBytes] is on numbers; it is then the one a stable
  insertion sort gives. *)

Section Sort.

Context {A : Type} (compareFn : A -> A -> Num.t).

Fixpoint insertSorted (x : A) (l : list A) : list A :=
  match l with
  | [] => [x]
  | y :: l' =>
      if default 0 (compareFn x y) <=? 0 then x :: l else y :: insertSorted x l'
  end.

Definition Array_sort (l : list A) : list A := foldr insertSorted [] l.

End Sort.

(** ** Bundles *)

(** Modelled from the spec: the source map entry type of the external
    source-map collaborator, {generatedLine, generatedColumn,
    lastGeneratedColumnOnLine (optional), originalSourceId}, under the names
    the code reads them by. *)
Record Mapping := mkMapping {
  lineNumber : Z;
  columnNumber : Z;
  lastColumnNumber : option Z;
  sourceURL : string;
}.

(** Modelled from the spec: the bundle artifact.  [script_content] is
    [bundle.script.content]; [mappings] is what [bundle.map.mappings()] yields
    once [bundle.map.computeLastGeneratedColumns()] has run. *)
Record Bundle := mkBundle {
  script_content : option string;
  mappings : list Mapping;
}.

(** [s.split('\n')] *)
Fixpoint split_lines (s : string) : list string :=
  match s with
  | EmptyString => [EmptyString]
  | String c s' =>
      if Ascii.eqb c "010"%char then EmptyString :: split_lines s'
      else match split_lines s' with
           | line :: lines => String c line :: lines
           | [] => [String c EmptyString]
           end
  end.

(** [lineLengths.map(len => { const retVal = totalSoFar; totalSoFar += len + 1;
    return retVal; })] *)
Fixpoint lineOffsetsFrom (totalSoFar : Z) (lineLengths : list Z) : list Z :=
  match lineLengths with
  | [] => []
  | len :: rest => totalSoFar :: lineOffsetsFrom (totalSoFar + (len + 1)) rest
  end.

(** [array[i]] on a plain array: [undefined] unless [0 <= i < length]. *)
Definition Array_get (a : list Z) (i : Z) : Num.t :=
  if 0 <=? i then a !! Z.to_nat i else None.

(** [data.unusedByIndex[offset] === 1] *)
Definition unusedAt (offset : Num.t) (data : WasteData) : bool :=
  match offset with
  | Some o =>
      match Uint8Array.get (unusedByIndex data) o with
      | Some x => x =? 1
      | None => false
      end
  | None => false
  end.

(** [wasteData.every(data => data.unusedByIndex[offset] === 1)] *)
Definition unusedInEvery (wasteData : list WasteData) (offset : Num.t) : bool :=
  forallb (unusedAt offset) wasteData.

(** [files[k] = (files[k] || 0) + 1] *)
Definition increment (k : string) (files : JSObject.t) : JSObject.t :=
  JSObject.set k (JSObject.orZeroPlusOne (JSObject.get files k)) files.

(** One turn of the loop over the columns of a mapping. *)
Definition attributeOffset (wasteData : list WasteData) (k : string)
    (st : JSObject.t * Num.t) : JSObject.t * Num.t :=
  let '(files, offset) := st in
  ((if unusedInEvery wasteData offset then increment k files else files),
   Num.add offset 1).

(** [(mapping.lastColumnNumber - 1) || lineLengths[mapping.lineNumber]] *)
Definition lastColumnOfMapping (lineLengths : list Z) (mapping : Mapping) : Num.t :=
  Num.or (Num.sub (lastColumnNumber mapping) 1)
         (Array_get lineLengths (lineNumber mapping)).

(** The values of [i] in [for (let i = mapping.columnNumber;
    i <= lastColumnOfMapping; i++)]; none when the bound is [undefined]. *)
Definition columnsOfMapping (lineLengths : list Z) (mapping : Mapping) : list Z :=
  match lastColumnOfMapping lineLengths mapping with
  | Some last => upto (columnNumber mapping) (last + 1)
  | None => []
  end.

(** The body of the loop over [bundle.map.mappings()]. *)
Definition attributeMapping (wasteData : list WasteData)
    (lineLengths lineOffsets : list Z)
    (files : JSObject.t) (mapping : Mapping) : JSObject.t :=
  let offset := Array_get lineOffsets (lineNumber mapping) in
  let offset := Num.add offset (columnNumber mapping) in
  fst (fold_left (fun st (_ : Z) => attributeOffset wasteData (sourceURL mapping) st)
                 (columnsOfMapping lineLengths mapping) (files, offset)).

(** ** Summaries *)

Record Lengths := mkLengths {
  content : Z;
  unused : Z;
  transfer : number;
}.

(** An optional property of an object literal: the key is missing, or it is
    there with a value. *)
Inductive property (A : Type) : Type :=
  | missing : property A
  | present : A -> property A.
Arguments missing {A}.
Arguments present {A} _.

(** The [Summary] typedef.  A value of [None] in a present
    [sourcesWastedBytes] is [undefined]. *)
Record Summary := mkSummary {
  url : string;
  totalBytes : number;
  wastedBytes : number;
  wastedPercent : number;
  sourcesWastedBytes : property (option JSObject.t);
}.

Definition sumUnused (wasteData : list WasteData) : Z :=
  fold_left (fun unused usage => unused + unusedLength usage) wasteData 0.

Definition sumContent (wasteData : list WasteData) : Z :=
  fold_left (fun content usage => content + contentLength usage) wasteData 0.


(** [(unused / content) || 0] *)
Definition wastedRatio (wasteData : list WasteData) : number :=
  Number.or (div (of_Z (sumUnused wasteData)) (of_Z (sumContent wasteData)))
            (of_Z 0).

Definition mergeWaste (wasteData : list WasteData) (url : string)
    (lengths : Lengths) : Summary :=
  let wastedRatio := wastedRatio wasteData in
  let wastedBytes := Math_round (mul (transfer lengths) wastedRatio) in
  {| url := url;
     totalBytes := transfer lengths;
     wastedBytes := wastedBytes;
     wastedPercent := mul (of_Z 100) wastedRatio;
     sourcesWastedBytes := missing |}.

Definition createSourceWastedBytes (wasteData : list WasteData)
    (bundle : Bundle) (lengths : Lengths) : option JSObject.t :=
  match script_content bundle with
  | None | Some EmptyString => None
  | Some text =>
      let lineLengths := map (fun l => Z.of_nat (String.length l)) (split_lines text) in
      let lineOffsets := lineOffsetsFrom 0 lineLengths in
      let files :=
        fold_left (attributeMapping wasteData lineLengths lineOffsets)
                  (mappings bundle) [] in
      let dataSorted :=
        Array_sort (fun e1 e2 => JSObject.sub (snd e2) (snd e1))
                   (JSObject.entries files) in
      Some (fold_left (fun bundleData e => JSObject.set (fst e) (snd e) bundleData)
                      dataSorted [])
  end.

(** The functions that reach the network record: the record type and the
    transfer size estimator of [ByteEfficiencyAudit] are external. *)
Section WithNetworkRecord.

Context {NetworkRequest : Type}.
Variable networkRecord_url : NetworkRequest -> string.
Variable estimateTransferSize : NetworkRequest -> Z -> string -> number.

Definition determineLengths (wasteData : list WasteData)
    (networkRecord : NetworkRequest) : Lengths :=
  let unused := sumUnused wasteData in
  let content := sumContent wasteData in
  let transfer := estimateTransferSize networkRecord content "Script" in
  {| content := content; unused := unused; transfer := transfer |}.

Record ComputeInput := mkInput {
  networkRecord : NetworkRequest;
  scriptCoverages : list ScriptCoverage;
  bundle : option Bundle;
}.

Definition compute_ (data : ComputeInput) : Summary :=
  let wasteData := map computeWaste (scriptCoverages data) in
  let lengths := determineLengths wasteData (networkRecord data) in
  let item := mergeWaste wasteData (networkRecord_url (networkRecord data)) lengths in
  match bundle data with
  | None => item
  | Some bundle =>
      {| url := url item;
         totalBytes := totalBytes item;
         wastedBytes := wastedBytes item;
         wastedPercent := wastedPercent item;
         sourcesWastedBytes :=
           present (createSourceWastedBytes wasteData bundle lengths) |}
  end.

End WithNetworkRecord.

(** * Notions used to state the properties *)

(** The offset [i] lies in a range of the coverage that never ran. *)
Definition inUnexecuted (i : Z) (range : Range) : bool :=
  (count range =? 0) && (startOffset range <=? i) && (i <? endOffset range).

Definition coveredUnexecuted (c : ScriptCoverage) (i : Z) : bool :=
  existsb (inUnexecuted i) (allRanges c).

(** The number of bytes of a bitmap that are set to [1]. *)
Definition countUnused (a : list Z) : Z :=
  Z.of_nat (length (filter (fun x => x = 1) a)).

Definition keys (o : JSObject.t) : list string := map fst o.

(** The count that [o] holds for [k]: the number stored under that key, [0]
    when there is none. *)
Definition countOf (o : JSObject.t) (k : string) : Z :=
  match JSObject.getOwn o k with
  | Some (JSObject.VNum n) => n
  | _ => 0
  end.

(** A count that is not above another count. *)
Definition notAbove (v v' : JSObject.value) : Prop :=
  match v, v' with
  | JSObject.VNum n, JSObject.VNum n' => n <= n'
  | _, _ => False
  end.

(** The order claimed of the result: along the enumeration of the
    properties, the counts never increase. *)
Definition descending (o : JSObject.t) : Prop :=
  Sorted (fun e1 e2 => notAbove (snd e2) (snd e1)) (JSObject.entries o).

(** [lineLengths] of [createSourceWastedBytes]. *)
Definition lineLengthsOf (text : string) : list Z :=
  map (fun l => Z.of_nat (String.length l)) (split_lines text).

(** The value of [offset] when the loop over a mapping is at column [c]. *)
Definition offsetAt (lineOffsets : list Z) (m : Mapping) (c : Z) : Num.t :=
  Num.add (Array_get lineOffsets (lineNumber m)) c.

(** The columns of a mapping whose offset is unused in every bitmap. *)
Definition unusedColumns (wasteData : list WasteData)
    (lineLengths lineOffsets : list Z) (m : Mapping) : list Z :=
  List.filter (fun c => unusedInEvery wasteData (offsetAt lineOffsets m c))
              (columnsOfMapping lineLengths m).

(** The number of such columns over all mappings of the source [k]. *)
Definition attributedTo (wasteData : list WasteData)
    (lineLengths lineOffsets : list Z) (ms : list Mapping) (k : string) : Z :=
  fold_right Z.add 0
    (map (fun m => if String.eqb k (sourceURL m)
                   then Z.of_nat (length (unusedColumns wasteData lineLengths lineOffsets m))
                   else 0) ms).

(** [n] times the character [1]. *)
Fixpoint ones (n : nat) : string :=
  match n with
  | O => EmptyString
  | S n' => String "1" (ones n')
  end.

(** What [n] increments leave under the key [k] of an object that was
    created empty: the number [n], unless [k] names a property of
    [Object.prototype]; then it is the source text of the built-in function
    followed by [n] times [1], and nothing at all for [__proto__]. *)
Definition stored (k : string) (n : Z) : option JSObject.value :=
  if n <=? 0 then None
  else match JSObject.objectPrototype k with
       | None => Some (JSObject.VNum n)
       | Some (JSObject.Builtin name) =>
           Some (JSObject.VStr (String.append (JSObject.sourceText name)
                                              (ones (Z.to_nat n))))
       | Some JSObject.Accessor => None
       end.

(** The object [files] holds the tallies [tally]: distinct keys, and under
    each key what that many increments leave there. *)
Definition tallies (files : JSObject.t) (tally : string -> Z) : Prop :=
  List.NoDup (keys files)
  /\ (forall k, 0 <= tally k)
  /\ (forall k, JSObject.getOwn files k = stored k (tally k)).

(** The number of columns covered by the mappings of the source [k]. *)
Definition coveredColumns (lineLengths : list Z) (ms : list Mapping) (k : string) : Z :=
  fold_right Z.add 0
    (map (fun m => if String.eqb k (sourceURL m)
                   then Z.of_nat (length (columnsOfMapping lineLengths m))
                   else 0) ms).

(** The two executions of the divergence example: the same 100-byte script,
    never run in [executionA], run five times in [executionB]. *)
Definition executionA : ScriptCoverage := mkScript [mkFunction [mkRange 0 100 0]].
Definition executionB : ScriptCoverage := mkScript [mkFunction [mkRange 0 100 5]].

(** The last column of a mapping as the specification words it: one before
    the next column when there is a next column, the length of the line
    otherwise. *)
Definition claimedLastColumn (lineLengths : list Z) (m : Mapping) : Num.t :=
  match lastColumnNumber m with
  | Some next => Some (next - 1)
  | None => Array_get lineLengths (lineNumber m)
  end.

(** The text of the attribution example: two lines of 50 bytes each, the
    line terminator included. *)
Definition twoLines : string :=
  String.concat (String "010" EmptyString)
    [String.concat EmptyString (repeat "a"%string 49);
     String.concat EmptyString (repeat "b"%string 49);
     EmptyString].

(** One execution of a six-byte script that never ran. *)
Definition sixUnused : WasteData := computeWaste (mkScript [mkFunction [mkRange 0 6 0]]).

Definition noTextInput : @ComputeInput unit :=
  mkInput tt [executionA] (Some (mkBundle None [])).

(** Offsets as the coverage input promises them. *)
Definition validRange (r : Range) : Prop := 0 <= startOffset r <= endOffset r.

Definition structurallyValid (c : ScriptCoverage) : Prop :=
  Forall validRange (allRanges c).




(** The value of a number lies between 0 and 1: a zero, or a positive
    [m * 2^e] with [e <= 0] and [m <= 2^(-e)]. *)
Definition inUnitInterval (x : number) : Prop :=
  match x with
  | S754_zero _ => True
  | S754_finite false m e => e <= 0 /\ Z.pos m <= 2 ^ (- e)
  | _ => False
  end.

(** The bytes of a range that never ran. *)
Definition unexecutedLength (r : Range) : Z :=
  if count r =? 0 then endOffset r - startOffset r else 0.

(** The bytes of all ranges that never ran, each range counted for itself. *)
Definition unexecutedTotal (rs : list Range) : Z :=
  fold_right Z.add 0 (map unexecutedLength rs).

(** Two ranges that do not overlap. *)
Definition apart (r r' : Range) : Prop :=
  endOffset r <= startOffset r' \/ endOffset r' <= startOffset r.

(** Whether a write of [1] at [k] sets a byte that was not set. *)
Definition fresh (a : list Z) (k : Z) : bool :=
  match Uint8Array.get a k with
  | Some x => negb (x =? 1)
  | None => false
  end.

(** * Properties *)

(** ** The range marker *)

Section RangeMarker.

Lemma fold_left_flat_map {A B C : Type} (f : A -> B -> A) (g : C -> list B)
    (l : list C) (a : A) :
  fold_left f (flat_map g l) a = fold_left (fun a x => fold_left f (g x) a) l a.
Proof.
  revert a. induction l as [|x l IH]; intros a; simpl; [done|].
  by rewrite fold_left_app, IH.
Qed.

Lemma maximumEndOffset_flat (c : ScriptCoverage) :
  contentLength (computeWaste c) = Math_max 0 (map endOffset (allRanges c)).
Proof.
  unfold computeWaste, allRanges, Math_max; simpl.
  generalize 0. induction (functions c) as [|f fs IH]; intros m; simpl; [done|].
  rewrite IH, map_app, fold_left_app. done.
Qed.

Lemma unusedByIndex_flat (c : ScriptCoverage) :
  unusedByIndex (computeWaste c)
  = fold_left markRange (allRanges c)
              (Uint8Array.make (contentLength (computeWaste c))).
Proof. unfold computeWaste, allRanges; simpl. by rewrite fold_left_flat_map. Qed.

Lemma Math_max_lower (xs : list Z) (m : Z) : m <= Math_max m xs.
Proof.
  unfold Math_max. revert m. induction xs as [|x xs IH]; intros m; simpl; [lia|].
  specialize (IH (Z.max m x)). lia.
Qed.

Lemma Math_max_upper (xs : list Z) (m x : Z) : In x xs -> x <= Math_max m xs.
Proof.
  unfold Math_max. revert m. induction xs as [|y xs IH]; intros m; simpl; [done|].
  intros [->|Hin]; [|by apply IH].
  pose proof (Math_max_lower xs (Z.max m x)). unfold Math_max in *. lia.
Qed.

Lemma Math_max_attained (xs : list Z) (m : Z) :
  Math_max m xs = m \/ In (Math_max m xs) xs.
Proof.
  unfold Math_max. revert m. induction xs as [|y xs IH]; intros m; simpl; [by left|].
  destruct (IH (Z.max m y)) as [Heq|Hin]; [|by right; right].
  rewrite Heq. destruct (Z.max_spec m y) as [[_ ->]|[_ ->]]; [right; by left|by left].
Qed.

Lemma In_upto (lo hi j : Z) : In j (upto lo hi) <-> lo <= j < hi.
Proof.
  unfold upto, seqZ'. rewrite in_map_iff. split.
  - intros (k & <- & Hk). apply in_seq in Hk. lia.
  - intros Hj. exists (Z.to_nat (j - lo)). split; [lia|]. apply in_seq. lia.
Qed.

Lemma length_set (a : list Z) (i v : Z) :
  length (Uint8Array.set a i v) = length a.
Proof. unfold Uint8Array.set. destruct (0 <=? i); [apply length_insert|done]. Qed.

Lemma get_set (a : list Z) (i j v : Z) :
  Uint8Array.get (Uint8Array.set a i v) j
  = if (i =? j) && (0 <=? j) && (j <? Z.of_nat (length a)) then Some v
    else Uint8Array.get a j.
Proof.
  unfold Uint8Array.get, Uint8Array.set.
  destruct (Z.eqb_spec i j) as [->|Hne]; simpl.
  - destruct (Z.leb_spec 0 j); simpl; [|done].
    destruct (Z.ltb_spec j (Z.of_nat (length a))).
    + apply list_lookup_insert_eq. lia.
    + rewrite list_insert_ge by lia. done.
  - destruct (Z.leb_spec 0 i), (Z.leb_spec 0 j); try done.
    apply list_lookup_insert_ne. lia.
Qed.

Lemma length_setAll (ixs : list Z) (a : list Z) :
  length (fold_left (fun a i => Uint8Array.set a i 1) ixs a) = length a.
Proof.
  revert a. induction ixs as [|i ixs IH]; intros a; simpl; [done|].
  by rewrite IH, length_set.
Qed.

Lemma get_setAll (ixs : list Z) (a : list Z) (j : Z) :
  0 <= j < Z.of_nat (length a) ->
  Uint8Array.get (fold_left (fun a i => Uint8Array.set a i 1) ixs a) j
  = if existsb (Z.eqb j) ixs then Some 1 else Uint8Array.get a j.
Proof.
  revert a. induction ixs as [|i ixs IH]; intros a Hj; simpl; [done|].
  rewrite IH by (by rewrite length_set). rewrite get_set.
  rewrite (Z.eqb_sym j i).
  destruct (existsb (Z.eqb j) ixs); [by rewrite orb_true_r|].
  rewrite orb_false_r. destruct (i =? j); simpl; [|done].
  destruct (Z.leb_spec 0 j), (Z.ltb_spec j (Z.of_nat (length a))); simpl; try done; lia.
Qed.

Lemma existsb_upto (lo hi j : Z) :
  existsb (Z.eqb j) (upto lo hi) = (lo <=? j) && (j <? hi).
Proof.
  apply eq_true_iff_eq. rewrite existsb_exists, andb_true_iff.
  rewrite Z.leb_le, Z.ltb_lt. split.
  - intros (x & Hin & Heq). apply Z.eqb_eq in Heq. subst x. by apply In_upto.
  - intros Hj. exists j. split; [by apply In_upto|apply Z.eqb_refl].
Qed.

Lemma length_markRange (a : list Z) (range : Range) :
  length (markRange a range) = length a.
Proof. unfold markRange. destruct (count range =? 0); [apply length_setAll|done]. Qed.

Lemma get_markRange (a : list Z) (range : Range) (j : Z) :
  0 <= j < Z.of_nat (length a) ->
  Uint8Array.get (markRange a range) j
  = if inUnexecuted j range then Some 1 else Uint8Array.get a j.
Proof.
  intros Hj. unfold markRange, inUnexecuted.
  destruct (count range =? 0); simpl; [|done].
  by rewrite get_setAll, existsb_upto.
Qed.

Lemma length_markRanges (rs : list Range) (a : list Z) :
  length (fold_left markRange rs a) = length a.
Proof.
  revert a. induction rs as [|r rs IH]; intros a; simpl; [done|].
  by rewrite IH, length_markRange.
Qed.

Lemma get_markRanges (rs : list Range) (a : list Z) (j : Z) :
  0 <= j < Z.of_nat (length a) ->
  Uint8Array.get (fold_left markRange rs a) j
  = if existsb (inUnexecuted j) rs then Some 1 else Uint8Array.get a j.
Proof.
  revert a. induction rs as [|r rs IH]; intros a Hj; simpl; [done|].
  rewrite IH by (by rewrite length_markRange). rewrite get_markRange by done.
  destruct (existsb (inUnexecuted j) rs); [by rewrite orb_true_r|].
  by rewrite orb_false_r.
Qed.

Lemma get_make (n j : Z) :
  0 <= j < n -> Uint8Array.get (Uint8Array.make n) j = Some 0.
Proof.
  intros Hj. unfold Uint8Array.get, Uint8Array.make.
  destruct (Z.leb_spec 0 j); [|lia]. apply lookup_replicate_2. lia.
Qed.

Lemma length_make (n : Z) : length (Uint8Array.make n) = Z.to_nat n.
Proof. apply length_replicate. Qed.

(** Summing a bitmap of zeros and ones counts the ones. *)
Lemma sum_bits (a : list Z) (acc : Z) :
  Forall (fun x => x = 0 \/ x = 1) a ->
  fold_left (fun unused x => unused + x) a acc = acc + countUnused a.
Proof.
  unfold countUnused. revert acc.
  induction a as [|x a IH]; intros acc Hf; simpl; [lia|].
  inversion Hf as [|? ? Hx Ha]; subst. rewrite IH by done.
  rewrite filter_cons. destruct Hx as [->| ->]; case_decide; simpl; lia.
Qed.

Lemma countUnused_bound (a : list Z) :
  0 <= countUnused a <= Z.of_nat (length a).
Proof. unfold countUnused. pose proof (length_filter (fun x => x = 1) a). lia. Qed.

Lemma bits_markRanges (c : ScriptCoverage) :
  Forall (fun x => x = 0 \/ x = 1) (unusedByIndex (computeWaste c)).
Proof.
  apply Forall_lookup_2. intros i x Hx.
  rewrite unusedByIndex_flat in Hx.
  assert (Hlen : (i < length (Uint8Array.make (contentLength (computeWaste c))))%nat).
  { apply lookup_lt_Some in Hx. by rewrite length_markRanges in Hx. }
  assert (Hg : Uint8Array.get
                 (fold_left markRange (allRanges c)
                    (Uint8Array.make (contentLength (computeWaste c))))
                 (Z.of_nat i) = Some x).
  { unfold Uint8Array.get. destruct (Z.leb_spec 0 (Z.of_nat i)); [|lia].
    by rewrite Nat2Z.id. }
  rewrite get_markRanges in Hg by lia.
  destruct (existsb _ _); [right; congruence|].
  rewrite length_make in Hlen. rewrite get_make in Hg by lia.
  left. congruence.
Qed.

End RangeMarker.

(** C1. For every script coverage, [computeWaste] returns waste data whose
    [contentLength] is the largest [endOffset] of all ranges of all functions
    (an upper bound of every [endOffset], attained by a range when there is one
    and no [endOffset] is negative, and [0] otherwise, so when there is no
    range); whose bitmap has that length and holds [1] at an
    offset exactly when the offset lies in some range with count [0], a range
    with another count leaving the bitmap as it is; and whose [unusedLength]
    is the number of bytes set.  Without ranges the result is the empty bitmap
    with both lengths [0]. *)
Theorem computeWaste_spec (c : ScriptCoverage) :
  let w := computeWaste c in
  0 <= contentLength w
  /\ (forall r, In r (allRanges c) -> endOffset r <= contentLength w)
  /\ (contentLength w = 0
      \/ exists r, In r (allRanges c) /\ endOffset r = contentLength w)
  /\ (allRanges c <> [] -> (forall r, In r (allRanges c) -> 0 <= endOffset r) ->
      exists r, In r (allRanges c) /\ endOffset r = contentLength w)
  /\ Z.of_nat (length (unusedByIndex w)) = contentLength w
  /\ (forall i, 0 <= i < contentLength w ->
        Uint8Array.get (unusedByIndex w) i
        = Some (if coveredUnexecuted c i then 1 else 0))
  /\ (forall a r, count r <> 0 -> markRange a r = a)
  /\ unusedLength w = countUnused (unusedByIndex w)
  /\ (allRanges c = [] -> w = mkWasteData [] 0 0).
Proof.
  intros w.
  assert (Hcl : contentLength w = Math_max 0 (map endOffset (allRanges c)))
    by apply maximumEndOffset_flat.
  assert (Hnn : 0 <= contentLength w) by (rewrite Hcl; apply Math_max_lower).
  assert (Hlen : Z.of_nat (length (unusedByIndex w)) = contentLength w).
  { subst w. rewrite unusedByIndex_flat, length_markRanges, length_make. lia. }
  split_and!.
  - done.
  - intros r Hr. rewrite Hcl. apply Math_max_upper. by apply in_map.
  - destruct (Math_max_attained (map endOffset (allRanges c)) 0) as [Heq|Hin].
    + left. congruence.
    + right. apply in_map_iff in Hin as (r & Hr & Hin). exists r. split; [done|congruence].
  - intros Hne Hpos.
    destruct (Math_max_attained (map endOffset (allRanges c)) 0) as [Heq|Hin].
    + destruct (allRanges c) as [|r rs] eqn:Hrs; [done|]. exists r.
      split; [by left|].
      assert (endOffset r <= Math_max 0 (map endOffset (r :: rs)))
        by (apply Math_max_upper; by left).
      specialize (Hpos r ltac:(by left)). lia.
    + apply in_map_iff in Hin as (r & Hr & Hin). exists r. split; [done|congruence].
  - done.
  - intros i Hi. subst w. rewrite unusedByIndex_flat.
    rewrite get_markRanges by (rewrite length_make; lia).
    unfold coveredUnexecuted. destruct (existsb _ _); [done|].
    by apply get_make.
  - intros a r Hr. unfold markRange. by destruct (Z.eqb_spec (count r) 0).
  - subst w. unfold computeWaste at 1. simpl unusedLength.
    change (fold_left _ (functions c) (Uint8Array.make _))
      with (unusedByIndex (computeWaste c)).
    rewrite sum_bits by apply bits_markRanges. lia.
  - intros Hnil. subst w.
    assert (H0 : contentLength (computeWaste c) = 0)
      by (rewrite maximumEndOffset_flat, Hnil; reflexivity).
    assert (Hb : unusedByIndex (computeWaste c) = [])
      by (rewrite unusedByIndex_flat, H0, Hnil; reflexivity).
    clear Hcl Hnn Hlen. unfold computeWaste in *. simpl in H0, Hb.
    cbv zeta. rewrite Hb, H0. reflexivity.
Qed.

Lemma computeWaste_spec_witness :
  Uint8Array.get
    (unusedByIndex
       (computeWaste
          (mkScript [mkFunction [mkRange 0 5 1; mkRange 1 3 0];
                     mkFunction [mkRange 4 6 0]]))) 2 = Some 1
  /\ computeWaste (mkScript [mkFunction []]) = mkWasteData [] 0 0.
Proof.
  split.
  - apply (computeWaste_spec
             (mkScript [mkFunction [mkRange 0 5 1; mkRange 1 3 0];
                        mkFunction [mkRange 4 6 0]])).
    vm_compute. split; [discriminate|reflexivity].
  - apply (computeWaste_spec (mkScript [mkFunction []])). reflexivity.
Defined.

(** ** Source attribution: which offsets count *)

Section Attribution.

Variable wasteData : list WasteData.

Lemma unusedAt_out_of_bounds (data : WasteData) (offset : Z) :
  Z.of_nat (length (unusedByIndex data)) <= offset ->
  unusedAt (Some offset) data = false.
Proof.
  intros Hge. unfold unusedAt, Uint8Array.get.
  destruct (Z.leb_spec 0 offset); [|done].
  rewrite lookup_ge_None_2 by lia. done.
Qed.

Lemma unusedAt_no_ones (data : WasteData) (offset : Num.t) :
  forallb (fun x => negb (x =? 1)) (unusedByIndex data) = true ->
  unusedAt offset data = false.
Proof.
  intros Hall. destruct offset as [o|]; [|done]. unfold unusedAt, Uint8Array.get.
  destruct (0 <=? o); [|done].
  destruct (unusedByIndex data !! Z.to_nat o) as [x|] eqn:Hx; [|done].
  rewrite forallb_forall in Hall.
  apply negb_true_iff, Hall, list_elem_of_In. by eapply list_elem_of_lookup_2.
Qed.

Lemma unusedInEvery_used (data : WasteData) (offset : Num.t) :
  In data wasteData -> unusedAt offset data = false ->
  unusedInEvery wasteData offset = false.
Proof.
  intros Hin Hused. unfold unusedInEvery.
  destruct (forallb (unusedAt offset) wasteData) eqn:Hall; [|done].
  rewrite forallb_forall in Hall. by rewrite (Hall _ Hin) in Hused.
Qed.

(** When no offset passes the test, the loop over the columns of a mapping
    leaves the counters alone. *)
Lemma columns_never (k : string) (cols : list Z) (files : JSObject.t)
    (offset : Num.t) :
  (forall o, unusedInEvery wasteData o = false) ->
  fst (fold_left (fun st (_ : Z) => attributeOffset wasteData k st)
                 cols (files, offset)) = files.
Proof.
  intros Hnever. revert offset.
  induction cols as [|c cols IH]; intros offset; simpl; [done|].
  rewrite Hnever. apply IH.
Qed.

Lemma mappings_never (lineLengths lineOffsets : list Z) (ms : list Mapping)
    (files : JSObject.t) :
  (forall o, unusedInEvery wasteData o = false) ->
  fold_left (attributeMapping wasteData lineLengths lineOffsets) ms files = files.
Proof.
  intros Hnever. revert files.
  induction ms as [|m ms IH]; intros files; simpl; [done|].
  unfold attributeMapping at 2. rewrite columns_never by done. apply IH.
Qed.

Lemma createSourceWastedBytes_never (bundle : Bundle) (lengths : Lengths) :
  (forall o, unusedInEvery wasteData o = false) ->
  createSourceWastedBytes wasteData bundle lengths
  = match script_content bundle with
    | None | Some EmptyString => None
    | Some _ => Some []
    end.
Proof.
  intros Hnever. unfold createSourceWastedBytes.
  destruct (script_content bundle) as [[|c text]|]; try done.
  by rewrite mappings_never.
Qed.

End Attribution.

(** C2. For execution A (one range [0,100) with count 0) and execution B (one
    range [0,100) with count 5), [determineLengths] reports content 200 and
    unused 100, the plain sums, whereas no offset is unused in both bitmaps, so
    that [createSourceWastedBytes] attributes nothing to any source, whatever
    the bundle: its result has no entry (or is absent, for a bundle without
    text). *)
Theorem divergence_sum_vs_every {NetworkRequest : Type}
    (estimateTransferSize : NetworkRequest -> Z -> string -> number)
    (networkRecord : NetworkRequest) (bundle : Bundle) :
  let wasteData := [computeWaste executionA; computeWaste executionB] in
  let lengths := determineLengths estimateTransferSize wasteData networkRecord in
  content lengths = 200
  /\ unused lengths = 100
  /\ (forall offset, unusedInEvery wasteData offset = false)
  /\ createSourceWastedBytes wasteData bundle lengths
     = match script_content bundle with
       | None | Some EmptyString => None
       | Some _ => Some []
       end.
Proof.
  intros wasteData lengths.
  assert (Hnever : forall offset, unusedInEvery wasteData offset = false).
  { intros offset. apply (unusedInEvery_used _ (computeWaste executionB)).
    - right. by left.
    - apply unusedAt_no_ones. by vm_compute. }
  split_and!; [by vm_compute|by vm_compute|done|].
  by apply createSourceWastedBytes_never.
Qed.

(** C5. In [createSourceWastedBytes], an offset at or beyond the length of a
    bitmap reads as used in that bitmap: the test of that bitmap fails, hence
    the test over all executions fails, and the turn of the loop at that offset
    leaves every counter as it was and moves on to the next offset. *)
Theorem offset_beyond_bitmap_is_used (wasteData : list WasteData)
    (data : WasteData) (offset : Z) (k : string) (files : JSObject.t) :
  In data wasteData ->
  Z.of_nat (length (unusedByIndex data)) <= offset ->
  unusedAt (Some offset) data = false
  /\ unusedInEvery wasteData (Some offset) = false
  /\ attributeOffset wasteData k (files, Some offset) = (files, Some (offset + 1)).
Proof.
  intros Hin Hge.
  assert (Hused : unusedAt (Some offset) data = false)
    by by apply unusedAt_out_of_bounds.
  assert (Hevery : unusedInEvery wasteData (Some offset) = false)
    by by eapply unusedInEvery_used.
  split_and!; [done|done|].
  unfold attributeOffset. by rewrite Hevery.
Qed.

Lemma offset_beyond_bitmap_is_used_witness :
  attributeOffset [mkWasteData [1; 1; 1] 3 3; mkWasteData [1; 1] 2 2] "a.js"
                  ([("a.js", JSObject.VNum 2)], Some 2)
  = ([("a.js", JSObject.VNum 2)], Some 3).
Proof.
  apply (offset_beyond_bitmap_is_used
           [mkWasteData [1; 1; 1] 3 3; mkWasteData [1; 1] 2 2]
           (mkWasteData [1; 1] 2 2) 2 "a.js" [("a.js", JSObject.VNum 2)]).
  - right. left. reflexivity.
  - simpl. lia.
Defined.

(** ** Objects as records: lookups, keys and order *)

Section ObjectFacts.

Lemma get_None_keys (o : JSObject.t) (k : string) :
  JSObject.getOwn o k = None <-> ~ In k (keys o).
Proof.
  induction o as [|[k' v] o IH]; simpl; [tauto|].
  destruct (String.eqb_spec k k') as [->|Hne].
  - split; [done|]. intros Hn. exfalso. apply Hn. by left.
  - rewrite IH. split; [intros Hn [?|?]; [congruence|done]|tauto].
Qed.

Lemma get_Some_In (o : JSObject.t) (k : string) (v : JSObject.value) :
  JSObject.getOwn o k = Some v -> In (k, v) o.
Proof.
  induction o as [|[k' v'] o IH]; simpl; [done|].
  destruct (String.eqb_spec k k') as [->|Hne]; [intros [= ->]; by left|].
  intros Hg. right. by apply IH.
Qed.

Lemma In_get_Some (o : JSObject.t) (k : string) (v : JSObject.value) :
  List.NoDup (keys o) -> In (k, v) o -> JSObject.getOwn o k = Some v.
Proof.
  induction o as [|[k' v'] o IH]; simpl; [done|].
  intros Hnd Hin. apply NoDup_cons_iff in Hnd as [Hk' Hnd].
  destruct Hin as [[= -> ->]|Hin]; [by rewrite String.eqb_refl|].
  destruct (String.eqb_spec k k') as [->|Hne]; [|by apply IH].
  exfalso. apply Hk'. apply in_map_iff. by exists (k', v).
Qed.

Lemma keys_replace (k : string) (v : JSObject.value) (o : JSObject.t) :
  keys (JSObject.replace k v o) = keys o.
Proof.
  induction o as [|[k' v'] o IH]; simpl; [done|].
  destruct (String.eqb k k'); simpl; [done|]. by f_equal.
Qed.

Lemma get_replace (k : string) (v : JSObject.value) (o : JSObject.t) (k' : string) :
  JSObject.getOwn (JSObject.replace k v o) k'
  = if String.eqb k' k
    then match JSObject.getOwn o k with Some _ => Some v | None => None end
    else JSObject.getOwn o k'.
Proof.
  induction o as [|[k1 v1] o IH]; simpl; [by destruct (String.eqb k' k)|].
  destruct (String.eqb_spec k k1) as [->|Hne]; simpl.
  - by destruct (String.eqb_spec k' k1).
  - rewrite IH. destruct (String.eqb_spec k' k) as [Heq|Hne']; [|done].
    subst k'. by destruct (String.eqb_spec k k1).
Qed.

Lemma insertIndex_perm (n : Z) (k : string) (v : JSObject.value) (o : JSObject.t) :
  Permutation (JSObject.insertIndex n k v o) ((k, v) :: o).
Proof.
  induction o as [|[k' v'] o IH]; simpl; [done|].
  destruct (JSObject.arrayIndex k'); [|done].
  destruct (n <? z); [done|].
  rewrite IH. apply perm_swap.
Qed.

(** Writing a key that the object does not have adds one property, unless
    the key is the accessor of [Object.prototype]. *)
Lemma set_new_perm (k : string) (v : JSObject.value) (o : JSObject.t) :
  JSObject.getOwn o k = None ->
  JSObject.objectPrototype k <> Some JSObject.Accessor ->
  Permutation (JSObject.set k v o) ((k, v) :: o).
Proof.
  intros Hg Hk. unfold JSObject.set. rewrite Hg.
  assert (Hperm : Permutation
            match JSObject.arrayIndex k with
            | Some n => JSObject.insertIndex n k v o
            | None => o ++ [(k, v)]
            end ((k, v) :: o)).
  { destruct (JSObject.arrayIndex k); [apply insertIndex_perm|].
    symmetry. apply Permutation_cons_append. }
  by destruct (JSObject.objectPrototype k) as [[name|]|].
Qed.

Lemma set_accessor (k : string) (v : JSObject.value) (o : JSObject.t) :
  JSObject.getOwn o k = None ->
  JSObject.objectPrototype k = Some JSObject.Accessor ->
  JSObject.set k v o = o.
Proof. intros Hg Hk. unfold JSObject.set. by rewrite Hg, Hk. Qed.

Lemma get_perm (o o' : JSObject.t) (k : string) :
  List.NoDup (keys o) -> Permutation o o' ->
  JSObject.getOwn o k = JSObject.getOwn o' k.
Proof.
  intros Hnd Hp.
  assert (Hnd' : List.NoDup (keys o'))
    by (eapply Permutation_NoDup; [by apply Permutation_map|done]).
  destruct (JSObject.getOwn o k) as [v|] eqn:Hg.
  - symmetry. apply In_get_Some; [done|].
    eapply Permutation_in; [done|]. by apply get_Some_In.
  - symmetry. apply get_None_keys. apply get_None_keys in Hg.
    intros Hin. apply Hg. eapply Permutation_in; [|done].
    symmetry. by apply Permutation_map.
Qed.

Lemma accessor_dec (k : string) :
  {JSObject.objectPrototype k = Some JSObject.Accessor}
  + {JSObject.objectPrototype k <> Some JSObject.Accessor}.
Proof. destruct (JSObject.objectPrototype k) as [[name|]|]; by (left + right). Qed.

Lemma NoDup_set (k : string) (v : JSObject.value) (o : JSObject.t) :
  List.NoDup (keys o) -> List.NoDup (keys (JSObject.set k v o)).
Proof.
  intros Hnd. destruct (JSObject.getOwn o k) as [v'|] eqn:Hg.
  - unfold JSObject.set. rewrite Hg. by rewrite keys_replace.
  - destruct (accessor_dec k) as [Hk|Hk]; [by rewrite set_accessor|].
    eapply Permutation_NoDup.
    + symmetry. apply Permutation_map. by apply set_new_perm.
    + simpl. apply NoDup_cons_iff. split; [by apply get_None_keys|done].
Qed.

Lemma obj_get_set (k : string) (v : JSObject.value) (o : JSObject.t) (k' : string) :
  List.NoDup (keys o) ->
  JSObject.getOwn (JSObject.set k v o) k'
  = if String.eqb k' k
    then match JSObject.getOwn o k, JSObject.objectPrototype k with
         | None, Some JSObject.Accessor => None
         | _, _ => Some v
         end
    else JSObject.getOwn o k'.
Proof.
  intros Hnd. destruct (JSObject.getOwn o k) as [v'|] eqn:Hg.
  - unfold JSObject.set. rewrite Hg, get_replace, Hg. done.
  - destruct (accessor_dec k) as [Hk|Hk].
    + rewrite set_accessor, Hk by done.
      by destruct (String.eqb_spec k' k) as [->|].
    + rewrite (get_perm _ ((k, v) :: o)).
      * simpl. destruct (String.eqb k' k); [|done].
        by destruct (JSObject.objectPrototype k) as [[name|]|].
      * by apply NoDup_set.
      * by apply set_new_perm.
Qed.

(** Rebuilding an object from a list of entries keeps every lookup; no entry
    of the list has the key [__proto__]. *)
Lemma get_rebuild (l : list (string * JSObject.value)) (o : JSObject.t) (k : string) :
  List.NoDup (keys o) ->
  Forall (fun e => JSObject.objectPrototype (fst e) <> Some JSObject.Accessor) l ->
  JSObject.getOwn
    (fold_left (fun bundleData e => JSObject.set (fst e) (snd e) bundleData) l o) k
  = match JSObject.getOwn (rev l) k with
    | Some v => Some v
    | None => JSObject.getOwn o k
    end
  /\ List.NoDup (keys (fold_left
              (fun bundleData e => JSObject.set (fst e) (snd e) bundleData) l o)).
Proof.
  revert o. induction l as [|[k1 v1] l IH]; intros o Hnd Hl; simpl; [done|].
  inversion Hl as [|? ? Hk1 Hl']; subst. simpl in Hk1.
  destruct (IH (JSObject.set k1 v1 o)) as [Hget Hnd']; [by apply NoDup_set|done|].
  split; [|done]. rewrite Hget, obj_get_set by done.
  assert (Hset : match JSObject.getOwn o k1, JSObject.objectPrototype k1 with
                 | None, Some JSObject.Accessor => None
                 | _, _ => Some v1
                 end = Some v1).
  { destruct (JSObject.getOwn o k1); [done|].
    by destruct (JSObject.objectPrototype k1) as [[name|]|]. }
  rewrite Hset. clear. induction (rev l) as [|[k2 v2] r IHr]; simpl.
  - by destruct (String.eqb k k1).
  - by destruct (String.eqb k k2).
Qed.

(** A key that is not an array index goes last; so an object built from
    entries without array-index keys lists them as they came. *)
Lemma rebuild_no_index (l : list (string * JSObject.value)) (o : JSObject.t) :
  List.NoDup (keys (o ++ l)) ->
  Forall (fun e => JSObject.arrayIndex (fst e) = None
                   /\ JSObject.objectPrototype (fst e) <> Some JSObject.Accessor) l ->
  fold_left (fun bundleData e => JSObject.set (fst e) (snd e) bundleData) l o
  = o ++ l.
Proof.
  revert o. induction l as [|[k v] l IH]; intros o Hnd Hni; simpl.
  - by rewrite app_nil_r.
  - inversion Hni as [|? ? [Hk Hk'] Hl]; subst. simpl in Hk, Hk'.
    assert (Hg : JSObject.getOwn o k = None).
    { apply get_None_keys. intros Hin. unfold keys in Hnd.
      rewrite map_app in Hnd. simpl in Hnd.
      apply NoDup_remove_2 in Hnd. apply Hnd, in_or_app. by left. }
    assert (Hset : JSObject.set k v o = o ++ [(k, v)]).
    { unfold JSObject.set. rewrite Hg, Hk.
      by destruct (JSObject.objectPrototype k) as [[name|]|]. }
    rewrite Hset.
    rewrite IH; [by rewrite <- app_assoc| by rewrite <- app_assoc |done].
Qed.

End ObjectFacts.

(** ** The sort by descending count *)

Section SortFacts.

Context {A : Type} (compareFn : A -> A -> Num.t).

Lemma insertSorted_perm (x : A) (l : list A) :
  Permutation (insertSorted compareFn x l) (x :: l).
Proof.
  induction l as [|y l IH]; simpl; [done|].
  destruct (default 0 (compareFn x y) <=? 0); [done|].
  rewrite IH. apply perm_swap.
Qed.

Lemma Array_sort_perm (l : list A) : Permutation (Array_sort compareFn l) l.
Proof.
  induction l as [|x l IH]; simpl; [done|].
  rewrite insertSorted_perm. by constructor.
Qed.

(** For a comparator that never puts two elements in both orders, the
    result is ordered: no element is followed by one that sorts before it. *)
Hypothesis compareFn_total :
  forall x y, 0 < default 0 (compareFn x y) -> default 0 (compareFn y x) <= 0.

Lemma insertSorted_sorted (x : A) (l : list A) :
  Sorted (fun a b => default 0 (compareFn a b) <= 0) l ->
  Sorted (fun a b => default 0 (compareFn a b) <= 0) (insertSorted compareFn x l).
Proof.
  induction l as [|y l IH]; intros Hs; simpl.
  - by repeat constructor.
  - destruct (Z.leb_spec (default 0 (compareFn x y)) 0) as [Hle|Hgt].
    + constructor; [done|]. by constructor.
    + apply Sorted_inv in Hs as [Hs Hhd]. constructor; [by apply IH|].
      destruct l as [|z l]; simpl.
      * constructor. by apply compareFn_total.
      * destruct (default 0 (compareFn x z) <=? 0); constructor.
        -- by apply compareFn_total.
        -- by inversion Hhd.
Qed.

Lemma Array_sort_sorted (l : list A) :
  Sorted (fun a b => default 0 (compareFn a b) <= 0) (Array_sort compareFn l).
Proof.
  induction l as [|x l IH]; simpl; [constructor|]. by apply insertSorted_sorted.
Qed.

End SortFacts.

(** ** What the attribution loop computes *)

Section AttributionLoop.

Variable wasteData : list WasteData.
Variables lineLengths lineOffsets : list Z.

Lemma seqZ'_S (lo : Z) (n : nat) : seqZ' lo (S n) = lo :: seqZ' (lo + 1) n.
Proof.
  unfold seqZ'. simpl. f_equal; [lia|].
  rewrite <- seq_shift, map_map. apply map_ext. intros k. lia.
Qed.

Lemma Forall_replace (P : string * JSObject.value -> Prop) (k : string)
    (v : JSObject.value) (o : JSObject.t) :
  Forall P o -> (forall v', In (k, v') o -> P (k, v)) ->
  Forall P (JSObject.replace k v o).
Proof.
  intros Ho. induction Ho as [|[k' v'] o Hx Ho IH]; intros Hkv; simpl; [done|].
  destruct (String.eqb_spec k k') as [->|Hne].
  - constructor; [|done]. apply (Hkv v'). by left.
  - constructor; [done|]. apply IH. intros v'' Hin. apply (Hkv v''). by right.
Qed.

Lemma Forall_set (P : string * JSObject.value -> Prop) (k : string)
    (v : JSObject.value) (o : JSObject.t) :
  Forall P o -> P (k, v) -> Forall P (JSObject.set k v o).
Proof.
  intros Ho Hkv. destruct (JSObject.getOwn o k) as [v'|] eqn:Hg.
  - unfold JSObject.set. rewrite Hg. by apply Forall_replace.
  - destruct (accessor_dec k) as [Hk|Hk]; [by rewrite set_accessor|].
    eapply Permutation_Forall; [symmetry; by apply set_new_perm|].
    by constructor.
Qed.

Lemma tallies_ext (files : JSObject.t) (tally tally' : string -> Z) :
  (forall k, tally k = tally' k) -> tallies files tally -> tallies files tally'.
Proof.
  intros Heq (Hnd & Hnn & Hget). split_and!; [done| |].
  - intros k. rewrite <- Heq. apply Hnn.
  - intros k. rewrite <- Heq. apply Hget.
Qed.

Lemma tallies_empty : tallies [] (fun _ => 0).
Proof. split_and!; [constructor|done|done]. Qed.

Lemma append_assoc (a b c : string) :
  String.append (String.append a b) c = String.append a (String.append b c).
Proof. induction a as [|x a IH]; [done|]. exact (f_equal (String x) IH). Qed.

Lemma ones_S (n : nat) : String.append (ones n) "1" = ones (S n).
Proof. induction n as [|n IH]; [done|]. exact (f_equal (String "1") IH). Qed.

Lemma sourceText_not_empty (name rest : string) :
  String.eqb (String.append (JSObject.sourceText name) rest) EmptyString = false.
Proof. reflexivity. Qed.

(** What one increment stores, given what the increments before it left. *)
Lemma orZeroPlusOne_stored (files : JSObject.t) (k : string) (n : Z) :
  0 <= n -> JSObject.getOwn files k = stored k n ->
  JSObject.objectPrototype k <> Some JSObject.Accessor ->
  stored k (n + 1) = Some (JSObject.orZeroPlusOne (JSObject.get files k)).
Proof.
  intros Hn Hg Hk. unfold JSObject.get. rewrite Hg. unfold stored.
  destruct (Z.leb_spec (n + 1) 0) as [|_]; [lia|].
  destruct (Z.leb_spec n 0) as [Hle|Hgt].
  - assert (n = 0) as -> by lia.
    by destruct (JSObject.objectPrototype k) as [[name|]|].
  - destruct (JSObject.objectPrototype k) as [[name|]|]; [| done |].
    + unfold JSObject.orZeroPlusOne, JSObject.truthy.
      rewrite sourceText_not_empty. cbn [negb].
      replace (Z.to_nat (n + 1)) with (S (Z.to_nat n)) by lia.
      by rewrite append_assoc, ones_S.
    + unfold JSObject.orZeroPlusOne, JSObject.truthy.
      destruct (Z.eqb_spec n 0); [lia|done].
Qed.

Lemma increment_tallies (k : string) (files : JSObject.t) (tally : string -> Z) :
  tallies files tally ->
  tallies (increment k files)
          (fun k' => tally k' + if String.eqb k' k then 1 else 0).
Proof.
  intros (Hnd & Hnn & Hget). unfold increment. split_and!.
  - by apply NoDup_set.
  - intros k'. specialize (Hnn k'). destruct (String.eqb k' k); lia.
  - intros k'. rewrite obj_get_set by done.
    destruct (String.eqb_spec k' k) as [->|Hne]; [|by rewrite Z.add_0_r].
    destruct (accessor_dec k) as [Hk|Hk].
    + rewrite Hget. unfold stored. rewrite Hk.
      by destruct (tally k <=? 0), (tally k + 1 <=? 0).
    + rewrite (orZeroPlusOne_stored files k (tally k)) by done.
      destruct (JSObject.getOwn files k); [done|].
      by destruct (JSObject.objectPrototype k) as [[name|]|].
Qed.

Lemma increment_keys (P : string -> Prop) (k : string) (files : JSObject.t) :
  P k -> Forall (fun e => P (fst e)) files ->
  Forall (fun e => P (fst e)) (increment k files).
Proof. intros Hk Hf. unfold increment. by apply Forall_set. Qed.

(** The loop over the columns [lo, lo+1, ..., lo+n-1] of a mapping, entered
    with [offset] at [base + lo]. *)
Lemma columns_loop (k : string) (base : Num.t) (n : nat) (lo : Z)
    (files : JSObject.t) (tally : string -> Z) (P : string -> Prop) :
  tallies files tally -> P k -> Forall (fun e => P (fst e)) files ->
  let files' :=
    fst (fold_left (fun st (_ : Z) => attributeOffset wasteData k st)
                   (seqZ' lo n) (files, Num.add base lo)) in
  tallies files'
    (fun k' => tally k'
               + if String.eqb k' k
                 then Z.of_nat (length (List.filter
                         (fun c => unusedInEvery wasteData (Num.add base c))
                         (seqZ' lo n)))
                 else 0)
  /\ Forall (fun e => P (fst e)) files'.
Proof.
  revert lo files tally. induction n as [|n IH]; intros lo files tally Ht Hk Hkeys.
  - simpl. split; [|done]. eapply tallies_ext; [|done].
    intros k'. cbn beta. destruct (String.eqb k' k); lia.
  - rewrite seqZ'_S. simpl.
    assert (Hnext : Num.add (Num.add base lo) 1 = Num.add base (lo + 1)).
    { destruct base; simpl; [f_equal; lia|done]. }
    rewrite Hnext.
    destruct (unusedInEvery wasteData (Num.add base lo)) eqn:Htest.
    + destruct (IH (lo + 1) (increment k files) _ (increment_tallies k files tally Ht))
        as (Ht' & Hkeys'); [done|by apply increment_keys|].
      split; [|done]. eapply tallies_ext; [|exact Ht'].
      intros k'. cbn beta. cbn [length]. destruct (String.eqb k' k); lia.
    + destruct (IH (lo + 1) files tally) as (Ht' & Hkeys'); [done..|].
      by split.
Qed.

Lemma mapping_loop (m : Mapping) (files : JSObject.t) (tally : string -> Z)
    (P : string -> Prop) :
  tallies files tally -> P (sourceURL m) -> Forall (fun e => P (fst e)) files ->
  let files' := attributeMapping wasteData lineLengths lineOffsets files m in
  tallies files'
    (fun k' => tally k'
               + if String.eqb k' (sourceURL m)
                 then Z.of_nat (length (unusedColumns wasteData lineLengths lineOffsets m))
                 else 0)
  /\ Forall (fun e => P (fst e)) files'.
Proof.
  intros Ht Hk Hkeys. unfold attributeMapping, unusedColumns, offsetAt, columnsOfMapping.
  destruct (lastColumnOfMapping lineLengths m) as [last|].
  - by apply columns_loop.
  - simpl. split; [|done]. eapply tallies_ext; [|done].
    intros k'. cbn beta. destruct (String.eqb k' (sourceURL m)); lia.
Qed.

Lemma mappings_loop (ms : list Mapping) (files : JSObject.t) (tally : string -> Z)
    (P : string -> Prop) :
  tallies files tally -> Forall (fun m => P (sourceURL m)) ms ->
  Forall (fun e => P (fst e)) files ->
  let files' :=
    fold_left (attributeMapping wasteData lineLengths lineOffsets) ms files in
  tallies files'
    (fun k' => tally k' + attributedTo wasteData lineLengths lineOffsets ms k')
  /\ Forall (fun e => P (fst e)) files'.
Proof.
  revert files tally. induction ms as [|m ms IH]; intros files tally Ht Hms Hkeys; simpl.
  - split; [|done]. eapply tallies_ext; [|done].
    intros k'. unfold attributedTo. cbn. lia.
  - inversion Hms as [|? ? Hm Hms']; subst.
    destruct (mapping_loop m files tally P) as (Ht' & Hkeys'); [done..|].
    destruct (IH _ _ Ht' Hms' Hkeys') as (Ht'' & Hkeys'').
    split; [|done]. eapply tallies_ext; [|exact Ht''].
    intros k'. unfold attributedTo. cbn [map fold_right]. cbn beta. lia.
Qed.

(** An object that holds tallies has no property [__proto__], and its
    properties under other keys than those of [Object.prototype] are
    numbers. *)
Lemma tallies_keys (files : JSObject.t) (tally : string -> Z) :
  tallies files tally ->
  Forall (fun e => JSObject.objectPrototype (fst e) <> Some JSObject.Accessor) files.
Proof.
  intros (Hnd & _ & Hget). apply List.Forall_forall. intros [k v] Hin Hk.
  apply In_get_Some in Hin; [|done]. rewrite Hget in Hin. unfold stored in Hin.
  simpl in Hk. rewrite Hk in Hin. by destruct (tally k <=? 0).
Qed.

Lemma tallies_numbers (files : JSObject.t) (tally : string -> Z) :
  tallies files tally ->
  Forall (fun e => JSObject.objectPrototype (fst e) = None) files ->
  Forall (fun e => exists n, snd e = JSObject.VNum n) files.
Proof.
  intros (Hnd & _ & Hget) Hkeys. apply List.Forall_forall. intros [k v] Hin.
  rewrite List.Forall_forall in Hkeys. specialize (Hkeys _ Hin). simpl in Hkeys.
  apply In_get_Some in Hin; [|done]. rewrite Hget in Hin. unfold stored in Hin.
  rewrite Hkeys in Hin. destruct (tally k <=? 0); [done|].
  injection Hin as <-. by eexists.
Qed.

End AttributionLoop.

Lemma Sorted_weaken {A : Type} (R R' : A -> A -> Prop) (Q : A -> Prop) (l : list A) :
  (forall x y, Q x -> Q y -> R x y -> R' x y) -> Forall Q l ->
  Sorted R l -> Sorted R' l.
Proof.
  intros HR HQ Hs. induction Hs as [|x l Hs IH Hhd]; constructor.
  - apply IH. by inversion HQ.
  - destruct Hhd; constructor. inversion HQ as [|? ? Hx Hl]; subst.
    inversion Hl; subst. by apply HR.
Qed.

Lemma compare_counts_total (e1 e2 : string * JSObject.value) :
  0 < default 0 (JSObject.sub (snd e2) (snd e1)) ->
  default 0 (JSObject.sub (snd e1) (snd e2)) <= 0.
Proof. destruct e1 as [k1 [a|s]], e2 as [k2 [b|s']]; simpl; lia. Qed.

(** The result of [createSourceWastedBytes] for a bundle with text: under
    each source is what as many increments leave there as the mappings of the
    source have columns whose offset is unused in every bitmap, and a source
    without such a column has no entry.  When no source name is an array
    index or names a property of [Object.prototype], the entries are listed
    by descending count. *)
Lemma createSourceWastedBytes_counts (wasteData : list WasteData)
    (bundle : Bundle) (lengths : Lengths) (text : string) :
  script_content bundle = Some text -> text <> EmptyString ->
  exists r,
    createSourceWastedBytes wasteData bundle lengths = Some r
    /\ List.NoDup (keys r)
    /\ (forall k,
          JSObject.getOwn r k
          = stored k (attributedTo wasteData (lineLengthsOf text)
                        (lineOffsetsFrom 0 (lineLengthsOf text)) (mappings bundle) k))
    /\ (Forall (fun m => JSObject.arrayIndex (sourceURL m) = None
                         /\ JSObject.objectPrototype (sourceURL m) = None)
               (mappings bundle) ->
        descending r).
Proof.
  intros Htext Hne. unfold createSourceWastedBytes. rewrite Htext.
  destruct text as [|c text]; [done|]. clear Hne.
  fold (lineLengthsOf (String c text)).
  set (lineLengths := lineLengthsOf (String c text)).
  set (lineOffsets := lineOffsetsFrom 0 lineLengths).
  set (files := fold_left (attributeMapping wasteData lineLengths lineOffsets)
                          (mappings bundle) []).
  set (dataSorted := Array_sort _ _).
  destruct (mappings_loop wasteData lineLengths lineOffsets (mappings bundle) []
              (fun _ => 0) (fun _ => True)) as (Ht & _);
    [apply tallies_empty|by apply Forall_true|constructor|].
  fold files in Ht. cbn beta in Ht.
  pose proof (tallies_keys _ _ Ht) as Hkeys.
  destruct Ht as (Hnd & Hnn & Hcount).
  assert (Hperm : Permutation dataSorted files) by apply Array_sort_perm.
  assert (Hsorted : Forall (fun e => JSObject.objectPrototype (fst e)
                                     <> Some JSObject.Accessor) dataSorted)
    by (eapply Permutation_Forall; [symmetry; apply Hperm|done]).
  destruct (get_rebuild dataSorted [] EmptyString) as [_ Hnd']; [constructor|done|].
  eexists. split_and!; [done|done| |].
  - intros k. destruct (get_rebuild dataSorted [] k) as [Hget _]; [constructor|done|].
    rewrite Hget. simpl.
    replace (JSObject.getOwn (rev dataSorted) k) with (JSObject.getOwn files k).
    + rewrite Hcount. simpl. by destruct (stored k _).
    + apply get_perm; [done|]. rewrite <- Hperm. apply Permutation_rev.
  - intros Hni.
    destruct (mappings_loop wasteData lineLengths lineOffsets (mappings bundle) []
                (fun _ => 0)
                (fun k => JSObject.arrayIndex k = None
                          /\ JSObject.objectPrototype k = None))
      as (Ht & Hplain); [apply tallies_empty|done|constructor|].
    fold files in Ht, Hplain.
    assert (Hnum : Forall (fun e => exists n, snd e = JSObject.VNum n) dataSorted).
    { eapply Permutation_Forall; [symmetry; apply Hperm|].
      eapply tallies_numbers; [done|].
      eapply Forall_impl; [done|]. by intros e [_ He]. }
    rewrite (rebuild_no_index dataSorted []).
    + unfold descending, JSObject.entries. simpl.
      eapply Sorted_weaken; [|exact Hnum|apply Array_sort_sorted].
      * simpl. intros [k1 v1] [k2 v2] [n1 ->] [n2 ->]. simpl. lia.
      * intros x y. apply compare_counts_total.
    + simpl. eapply Permutation_NoDup; [|exact Hnd].
      apply Permutation_map. by symmetry.
    + eapply Permutation_Forall; [symmetry; apply Hperm|].
      eapply Forall_impl; [done|]. intros e [He He']. split; [done|].
      by rewrite He'.
Qed.

(** ** Attribution with no execution at all *)

Lemma attributedTo_no_execution (lineLengths lineOffsets : list Z)
    (ms : list Mapping) (k : string) :
  attributedTo [] lineLengths lineOffsets ms k = coveredColumns lineLengths ms k.
Proof.
  unfold attributedTo, coveredColumns, unusedColumns. f_equal.
  apply map_ext. intros m. destruct (String.eqb k (sourceURL m)); [|done].
  do 2 f_equal. induction (columnsOfMapping lineLengths m) as [|c cs IH]; simpl; [done|].
  by f_equal.
Qed.

Lemma coveredColumns_nonneg (lineLengths : list Z) (ms : list Mapping) (k : string) :
  0 <= coveredColumns lineLengths ms k.
Proof.
  unfold coveredColumns. induction ms as [|m ms IH]; simpl; [lia|].
  destruct (String.eqb k (sourceURL m)); lia.
Qed.

Lemma coveredColumns_In (lineLengths : list Z) (ms : list Mapping) (m : Mapping) :
  In m ms ->
  Z.of_nat (length (columnsOfMapping lineLengths m))
  <= coveredColumns lineLengths ms (sourceURL m).
Proof.
  induction ms as [|m' ms IH]; simpl; [done|]. intros [->|Hin].
  - pose proof (coveredColumns_nonneg lineLengths ms (sourceURL m)).
    unfold coveredColumns in *. simpl. rewrite String.eqb_refl. lia.
  - specialize (IH Hin). unfold coveredColumns in *. simpl.
    destruct (String.eqb (sourceURL m) (sourceURL m')); lia.
Qed.

(** ** Where the code leaves the description *)

(** [lastColumnOfMapping], case by case: the fall-back to the length of the
    line is taken without a next column, and also when the next column is [1]. *)
Lemma lastColumnOfMapping_cases (lineLengths : list Z) (m : Mapping) :
  lastColumnOfMapping lineLengths m
  = match lastColumnNumber m with
    | Some next =>
        if next =? 1 then Array_get lineLengths (lineNumber m) else Some (next - 1)
    | None => Array_get lineLengths (lineNumber m)
    end.
Proof.
  unfold lastColumnOfMapping, Num.or, Num.sub, Num.truthy.
  destruct (lastColumnNumber m) as [next|]; simpl; [|done].
  destruct (Z.eqb_spec (next - 1) 0), (Z.eqb_spec next 1); simpl; try done; lia.
Qed.

Lemma lastColumnOfMapping_claimed (lineLengths : list Z) (m : Mapping) :
  lastColumnNumber m <> Some 1 ->
  lastColumnOfMapping lineLengths m = claimedLastColumn lineLengths m.
Proof.
  intros Hnext. rewrite lastColumnOfMapping_cases. unfold claimedLastColumn.
  destruct (lastColumnNumber m) as [next|]; [|done].
  destruct (Z.eqb_spec next 1); [congruence|done].
Qed.

(** C4. With the text [abcdef], a mapping of [a.js] at column 0 whose next
    mapping starts at column 1, and that next mapping of [b.js], the claimed
    last column of the first mapping is [1 - 1 = 0] (one offset tested), but the
    code takes the length of the line, tests the offsets 0 to 6 and counts six
    unused bytes for [a.js]. *)
Theorem next_column_one_falls_back_to_line_length :
  let first := mkMapping 0 0 (Some 1) "a.js" in
  let bundle := mkBundle (Some "abcdef") [first; mkMapping 0 1 None "b.js"] in
  claimedLastColumn (lineLengthsOf "abcdef") first = Some 0
  /\ lastColumnOfMapping (lineLengthsOf "abcdef") first = Some 6
  /\ columnsOfMapping (lineLengthsOf "abcdef") first = [0; 1; 2; 3; 4; 5; 6]
  /\ forall lengths,
       createSourceWastedBytes [sixUnused] bundle lengths
       = Some [("a.js", JSObject.VNum 6); ("b.js", JSObject.VNum 5)].
Proof. by vm_compute. Qed.

(** C8. With the text [abcdef] and the sources named [1] (columns 0 and 1) and
    [2] (the rest of the line), the entries are sorted to [2: 4] before [1: 2],
    but the object built from them lists its array-index keys first, in
    ascending order: the result enumerates [1: 2] before [2: 4], an increase. *)
Theorem array_index_sources_are_listed_ascending :
  let bundle :=
    mkBundle (Some "abcdef") [mkMapping 0 0 (Some 2) "1"; mkMapping 0 2 None "2"] in
  Array_sort (fun e1 e2 => JSObject.sub (snd e2) (snd e1))
             [("1", JSObject.VNum 2); ("2", JSObject.VNum 4)]
  = [("2", JSObject.VNum 4); ("1", JSObject.VNum 2)]
  /\ (forall lengths,
        createSourceWastedBytes [sixUnused] bundle lengths
        = Some [("1", JSObject.VNum 2); ("2", JSObject.VNum 4)])
  /\ ~ descending [("1", JSObject.VNum 2); ("2", JSObject.VNum 4)].
Proof.
  split_and!; [by vm_compute|by vm_compute|].
  intros Hd. apply Sorted_inv in Hd as [_ Hhd].
  apply HdRel_inv in Hhd. simpl in Hhd. lia.
Qed.

(** C10. With no execution and the text [abcdef], the one mapping, of the
    source named [__proto__], covers the columns 0 to 6, and the test over all
    executions holds at each of them.  But [files] is a plain object: the read
    of [files["__proto__"]] yields [Object.prototype], [+ 1] makes a string of
    it, and the assignment of that string is taken by the setter inherited
    from [Object.prototype], which ignores it.  No turn of the loop changes
    [files], and the result is the empty mapping: the seven covered bytes are
    attributed to no source, whereas the same mapping of a source named
    [a.js] gets them all. *)
Theorem source_named_proto_is_not_attributed :
  let bundle := mkBundle (Some "abcdef") [mkMapping 0 0 None "__proto__"] in
  (forall offset, unusedInEvery [] offset = true)
  /\ coveredColumns (lineLengthsOf "abcdef") (mappings bundle) "__proto__" = 7
  /\ JSObject.get [] "__proto__" = JSObject.ObjectPrototype
  /\ JSObject.orZeroPlusOne (JSObject.get [] "__proto__")
     = JSObject.VStr "[object Object]1"
  /\ increment "__proto__" [] = []
  /\ (forall lengths, createSourceWastedBytes [] bundle lengths = Some [])
  /\ (forall lengths,
        createSourceWastedBytes []
          (mkBundle (Some "abcdef") [mkMapping 0 0 None "a.js"]) lengths
        = Some [("a.js", JSObject.VNum 7)]).
Proof. by vm_compute. Qed.

(** ** The orchestrator *)

Section Orchestrator.

Context {NetworkRequest : Type}.
Variable networkRecord_url : NetworkRequest -> string.
Variable estimateTransferSize : NetworkRequest -> Z -> string -> number.

Lemma compute__sourcesWastedBytes (data : ComputeInput) :
  sourcesWastedBytes (compute_ networkRecord_url estimateTransferSize data)
  = match bundle data with
    | None => missing
    | Some b =>
        let wasteData := map computeWaste (scriptCoverages data) in
        present (createSourceWastedBytes wasteData b
                   (determineLengths estimateTransferSize wasteData
                      (networkRecord data)))
    end.
Proof. unfold compute_. by destruct (bundle data). Qed.

Lemma createSourceWastedBytes_absent (wasteData : list WasteData)
    (b : Bundle) (lengths : Lengths) :
  createSourceWastedBytes wasteData b lengths = None
  <-> script_content b = None \/ script_content b = Some EmptyString.
Proof.
  unfold createSourceWastedBytes.
  destruct (script_content b) as [[|c text]|].
  - split; [by right|done].
  - split; [done|intros [?|?]; done].
  - split; [by left|done].
Qed.

End Orchestrator.

(** C6. For every input of [compute_] with a bundle, the returned summary has
    the property [sourcesWastedBytes]: its value is [undefined] exactly when
    [createSourceWastedBytes] returns nothing, which is when the bundle has no
    text, and the mapping it returns otherwise.  The property is missing only
    when no bundle is given. *)
Theorem sourcesWastedBytes_present_with_bundle {NetworkRequest : Type}
    (networkRecord_url : NetworkRequest -> string)
    (estimateTransferSize : NetworkRequest -> Z -> string -> number)
    (data : ComputeInput) :
  let summary := compute_ networkRecord_url estimateTransferSize data in
  let wasteData := map computeWaste (scriptCoverages data) in
  let lengths := determineLengths estimateTransferSize wasteData (networkRecord data) in
  (sourcesWastedBytes summary = missing <-> bundle data = None)
  /\ forall b, bundle data = Some b ->
       sourcesWastedBytes summary
       = present (createSourceWastedBytes wasteData b lengths)
       /\ (sourcesWastedBytes summary = present None
           <-> script_content b = None \/ script_content b = Some EmptyString).
Proof.
  intros summary wasteData lengths. subst summary.
  rewrite compute__sourcesWastedBytes. split.
  - by destruct (bundle data).
  - intros b ->. split; [done|]. simpl. fold wasteData. fold lengths.
    rewrite <- createSourceWastedBytes_absent. split; [by intros [= ->]|by intros ->].
Qed.

Lemma sourcesWastedBytes_present_with_bundle_witness :
  sourcesWastedBytes
    (compute_ (fun _ => "https://example.com/a.js"%string)
              (fun _ _ _ => of_Z 1000) noTextInput)
  = present None.
Proof.
  destruct (sourcesWastedBytes_present_with_bundle
              (fun _ => "https://example.com/a.js"%string)
              (fun _ _ _ => of_Z 1000) noTextInput) as [_ Hwith].
  apply (Hwith (mkBundle None []) eq_refl). left. reflexivity.
Defined.

(** C6, as claimed, fails: with a bundle that has no text the summary is
    not without the property [sourcesWastedBytes]. *)
Lemma sourcesWastedBytes_not_omitted :
  createSourceWastedBytes (map computeWaste (scriptCoverages noTextInput))
    (mkBundle None []) (mkLengths 100 100 (of_Z 1000)) = None
  /\ sourcesWastedBytes
       (compute_ (fun _ => "https://example.com/a.js"%string)
                 (fun _ _ _ => of_Z 1000) noTextInput)
     <> missing.
Proof. split; [reflexivity|discriminate]. Qed.

(** ** Structurally invalid ranges *)

Section Clamping.









Lemma get_ext (a b : list Z) :
  length a = length b ->
  (forall j, 0 <= j < Z.of_nat (length a) -> Uint8Array.get a j = Uint8Array.get b j) ->
  a = b.
Proof.
  intros Hlen Hget. apply list_eq. intros i.
  destruct (decide (i < length a)%nat) as [Hlt|Hge].
  - specialize (Hget (Z.of_nat i)). unfold Uint8Array.get in Hget.
    destruct (Z.leb_spec 0 (Z.of_nat i)); [|lia].
    rewrite Nat2Z.id in Hget. apply Hget. lia.
  - rewrite !lookup_ge_None_2 by lia. done.
Qed.

Lemma computeWaste_eta (c : ScriptCoverage) :
  computeWaste c
  = mkWasteData (unusedByIndex (computeWaste c))
      (fold_left (fun unused x => unused + x) (unusedByIndex (computeWaste c)) 0)
      (contentLength (computeWaste c)).
Proof. reflexivity. Qed.


End Clamping.




(** ** The waste aggregator *)

Section Aggregator.

Lemma sums_shift (f : WasteData -> Z) (wasteData : list WasteData) (acc : Z) :
  fold_left (fun total usage => total + f usage) wasteData acc
  = acc + fold_left (fun total usage => total + f usage) wasteData 0.
Proof.
  revert acc. induction wasteData as [|w ws IH]; intros acc; simpl; [lia|].
  rewrite (IH (acc + f w)), (IH (0 + f w)). lia.
Qed.

Lemma sumUnused_cons (w : WasteData) (ws : list WasteData) :
  sumUnused (w :: ws) = unusedLength w + sumUnused ws.
Proof. unfold sumUnused. simpl. apply (sums_shift unusedLength). Qed.

Lemma sumContent_cons (w : WasteData) (ws : list WasteData) :
  sumContent (w :: ws) = contentLength w + sumContent ws.
Proof. unfold sumContent. simpl. apply (sums_shift contentLength). Qed.

(** Multiplying a finite number by [0] gives a zero. *)
Lemma mul_zero_finite (x : number) :
  is_finite x = true -> exists sign, mul x zero = S754_zero sign.
Proof. destruct x as [s|s| |s m e]; try done; intros _; by eexists. Qed.

End Aggregator.

(** ** The ratio as a binary64 number *)

Section Binary64.

Lemma digits2_pos_bounds (p : positive) :
  2 ^ (Z.pos (digits2_pos p) - 1) <= Z.pos p < 2 ^ Z.pos (digits2_pos p).
Proof.
  induction p as [p IH|p IH|]; simpl digits2_pos.
  - rewrite Pos2Z.inj_succ.
    replace (Z.succ (Z.pos (digits2_pos p)) - 1)
      with (Z.succ (Z.pos (digits2_pos p) - 1)) by lia.
    rewrite !Z.pow_succ_r by lia. lia.
  - rewrite Pos2Z.inj_succ.
    replace (Z.succ (Z.pos (digits2_pos p)) - 1)
      with (Z.succ (Z.pos (digits2_pos p) - 1)) by lia.
    rewrite !Z.pow_succ_r by lia. lia.
  - simpl. lia.
Qed.

Lemma Zdigits2_le (q t : Z) : 0 <= q -> 0 <= t -> q <= 2 ^ t -> Zdigits2 q <= t + 1.
Proof.
  intros Hq Ht Hle. destruct q as [|p|p]; simpl; [lia| |lia].
  pose proof (digits2_pos_bounds p) as [Hlo _].
  destruct (Z.le_gt_cases (Z.pos (digits2_pos p)) (t + 1)) as [|Hgt]; [done|].
  assert (2 ^ (t + 1) <= 2 ^ (Z.pos (digits2_pos p) - 1))
    by (apply Z.pow_le_mono_r; lia).
  rewrite Z.pow_add_r in * by lia. lia.
Qed.

Lemma digits2_pos_unique (p : positive) (d : Z) :
  2 ^ (d - 1) <= Z.pos p < 2 ^ d -> Z.pos (digits2_pos p) = d.
Proof.
  intros [Hlo Hhi]. pose proof (digits2_pos_bounds p) as [Hlo' Hhi'].
  assert (Hd : 0 < d).
  { destruct (Z.lt_ge_cases 0 d) as [|Hle]; [done|].
    destruct d as [| |d']; [simpl in Hhi; lia|lia|].
    rewrite Z.pow_neg_r in Hhi by lia. lia. }
  destruct (Z.lt_trichotomy (Z.pos (digits2_pos p)) d) as [Hlt|[Heq|Hgt]]; [|done|].
  - assert (2 ^ Z.pos (digits2_pos p) <= 2 ^ (d - 1))
      by (apply Z.pow_le_mono_r; lia). lia.
  - assert (2 ^ d <= 2 ^ (Z.pos (digits2_pos p) - 1))
      by (apply Z.pow_le_mono_r; lia). lia.
Qed.

Lemma iter_xO (p k : positive) : Z.pos (Pos.iter xO p k) = Z.pos p * 2 ^ Z.pos k.
Proof.
  induction k as [|k IH] using Pos.peano_ind.
  - simpl. lia.
  - rewrite Pos.iter_succ, Pos2Z.inj_succ, Z.pow_succ_r by lia. lia.
Qed.

(** Rounding does nothing to a mantissa of 53 digits with an exponent in
    range. *)
Lemma binary_round_aux_canonical (s : bool) (m : positive) (e : Z) :
  Z.pos (digits2_pos m) = 53 -> -1074 <= e <= 971 ->
  binary_round_aux prec emax s (Z.pos m) e loc_Exact = S754_finite s m e.
Proof.
  intros Hd He. unfold binary_round_aux, shr_fexp, fexp, emin, prec, emax.
  change (Zdigits2 (Z.pos m)) with (Z.pos (digits2_pos m)). rewrite Hd.
  replace (Z.max (53 + e - 53) (3 - 1024 - 53) - e) with 0 by lia.
  cbn [shr shr_record_of_loc shr_m loc_of_shr_record round_nearest_even].
  change (Zdigits2 (Z.pos m)) with (Z.pos (digits2_pos m)). rewrite Hd.
  replace (Z.max (53 + e - 53) (3 - 1024 - 53) - e) with 0 by lia.
  cbn [shr shr_record_of_loc shr_m].
  destruct (Z.leb_spec e (1024 - 53)); [done|lia].
Qed.

(** An integer below [2^53] is a binary64 number. *)
Lemma of_Z_exact (z : Z) :
  0 < z < 2 ^ 53 ->
  exists m e, of_Z z = S754_finite false m e /\ e <= 0 /\ Z.pos m = z * 2 ^ (- e).
Proof.
  intros [Hpos Hlt]. destruct z as [|p|p]; [lia| |lia].
  pose proof (digits2_pos_bounds p) as [Hlo Hhi].
  set (d := Z.pos (digits2_pos p)) in *.
  assert (Hd : 1 <= d <= 53).
  { split; [subst d; lia|].
    destruct (Z.le_gt_cases d 53) as [|Hgt]; [done|].
    assert (2 ^ 53 <= 2 ^ (d - 1)) by (apply Z.pow_le_mono_r; lia). lia. }
  unfold of_Z, binary_normalize, binary_round, shl_align, fexp, emin, prec, emax.
  fold d. replace (Z.max (d + 0 - 53) (3 - 1024 - 53) - 0) with (d - 53) by lia.
  replace (Z.max (d + 0 - 53) (3 - 1024 - 53)) with (d - 53) by lia.
  destruct (d - 53) as [|k|k] eqn:Hk; [|lia|].
  - exists p, 0. split; [|simpl; lia].
    apply (binary_round_aux_canonical false p 0); [fold d|]; lia.
  - exists (Pos.iter xO p k), (Z.neg k).
    assert (Hval : Z.pos (Pos.iter xO p k) = Z.pos p * 2 ^ Z.pos k) by apply iter_xO.
    split_and!; [|lia|by rewrite Hval].
    apply (binary_round_aux_canonical false); [|lia].
    apply digits2_pos_unique. rewrite Hval.
    assert (Hk' : Z.pos k = 53 - d) by lia.
    assert (E1 : 2 ^ (53 - 1) = 2 ^ (d - 1) * 2 ^ Z.pos k)
      by (rewrite <- Z.pow_add_r by lia; f_equal; lia).
    assert (E2 : 2 ^ 53 = 2 ^ d * 2 ^ Z.pos k)
      by (rewrite <- Z.pow_add_r by lia; f_equal; lia).
    rewrite E1, E2.
    assert (0 < 2 ^ Z.pos k) by (apply Z.pow_pos_nonneg; lia). nia.
Qed.

End Binary64.

Section Rounding.

Lemma mod_product (m a b : Z) :
  0 < a -> 0 < b -> m mod (a * b) = 0 -> m mod a = 0 /\ (m / a) mod b = 0.
Proof.
  intros Ha Hb Hm. apply Z.mod_divide in Hm as [t Ht]; [|lia]. subst m.
  replace (t * (a * b)) with (t * b * a) by lia.
  rewrite Z.mod_mul, Z.div_mul, Z.mod_mul by lia. done.
Qed.

Lemma shr_1_shift (mrs : shr_record) :
  0 <= shr_m mrs ->
  shr_m (shr_1 mrs) = shr_m mrs / 2
  /\ 0 <= shr_m (shr_1 mrs)
  /\ (shr_r mrs = false -> shr_s mrs = false -> shr_m mrs mod 2 = 0 ->
      shr_r (shr_1 mrs) = false /\ shr_s (shr_1 mrs) = false).
Proof.
  destruct mrs as [m r s]. simpl shr_m. intros Hm.
  rewrite <- Z.div2_div.
  destruct m as [|[p|p|]|p]; simpl; try lia;
    (split_and!; [done|lia|]); intros -> -> Hodd; try done.
  exfalso. rewrite Pos2Z.inj_xI in Hodd.
  rewrite Z.add_comm, Z.mul_comm, Z.mod_add in Hodd by lia. done.
Qed.

Lemma iter_shr_1 (p : positive) (mrs : shr_record) :
  0 <= shr_m mrs ->
  shr_m (SpecFloat.iter_pos shr_1 p mrs) = shr_m mrs / 2 ^ Z.pos p
  /\ 0 <= shr_m (SpecFloat.iter_pos shr_1 p mrs)
  /\ (shr_r mrs = false -> shr_s mrs = false -> shr_m mrs mod 2 ^ Z.pos p = 0 ->
      shr_r (SpecFloat.iter_pos shr_1 p mrs) = false /\ shr_s (SpecFloat.iter_pos shr_1 p mrs) = false).
Proof.
  revert mrs. induction p as [p IH|p IH|]; intros mrs Hm; simpl SpecFloat.iter_pos.
  - destruct (shr_1_shift mrs Hm) as (E1 & P1 & X1).
    destruct (IH _ P1) as (E2 & P2 & X2).
    destruct (IH _ P2) as (E3 & P3 & X3).
    assert (Hpow : 2 ^ Z.pos p~1 = 2 * (2 ^ Z.pos p * 2 ^ Z.pos p)).
    { rewrite <- Z.pow_add_r, <- Z.pow_succ_r by lia. f_equal. lia. }
    assert (0 < 2 ^ Z.pos p) by (apply Z.pow_pos_nonneg; lia).
    split_and!; [|done|].
    + rewrite E3, E2, E1, Hpow, !Z.div_div by lia. done.
    + intros Hr Hs Hmod. rewrite Hpow in Hmod.
      apply mod_product in Hmod as [Hmod1 Hmod2]; [|lia|lia].
      destruct (X1 Hr Hs Hmod1) as [Hr1 Hs1].
      rewrite <- E1 in Hmod2.
      apply mod_product in Hmod2 as [Hmod2 Hmod3]; [|lia|lia].
      destruct (X2 Hr1 Hs1 Hmod2) as [Hr2 Hs2].
      rewrite <- E2 in Hmod3. by apply X3.
  - destruct (IH _ Hm) as (E2 & P2 & X2).
    destruct (IH _ P2) as (E3 & P3 & X3).
    assert (Hpow : 2 ^ Z.pos p~0 = 2 ^ Z.pos p * 2 ^ Z.pos p).
    { rewrite <- Z.pow_add_r by lia. f_equal. lia. }
    assert (0 < 2 ^ Z.pos p) by (apply Z.pow_pos_nonneg; lia).
    split_and!; [|done|].
    + rewrite E3, E2, Hpow, !Z.div_div by lia. done.
    + intros Hr Hs Hmod. rewrite Hpow in Hmod.
      apply mod_product in Hmod as [Hmod2 Hmod3]; [|lia|lia].
      destruct (X2 Hr Hs Hmod2) as [Hr2 Hs2].
      rewrite <- E2 in Hmod3. by apply X3.
  - change (2 ^ 1) with 2. by apply shr_1_shift.
Qed.

Lemma round_nearest_even_bounds (m : Z) (l : location) :
  m <= round_nearest_even m l <= m + 1
  /\ (l = loc_Exact -> round_nearest_even m l = m).
Proof. destruct l as [|[]]; simpl; try destruct (Z.even m); split; try done; lia. Qed.

End Rounding.

Section RatioBound.

Lemma shr_fexp_le_one (m e : Z) (l : location) :
  0 <= m -> e <= 0 -> m <= 2 ^ (- e) -> (m = 2 ^ (- e) -> l = loc_Exact) ->
  exists mrs e',
    shr_fexp prec emax m e l = (mrs, e')
    /\ e' <= 0
    /\ 0 <= shr_m mrs <= 2 ^ (- e')
    /\ (shr_m mrs = 2 ^ (- e') -> loc_of_shr_record mrs = loc_Exact).
Proof.
  intros Hm He Hle Hx.
  pose proof (Zdigits2_le m (- e) Hm ltac:(lia) Hle) as Hd.
  unfold shr_fexp, shr.
  set (n := fexp prec emax (Zdigits2 m + e) - e).
  assert (Hn : n <= - e - 52) by (subst n; unfold fexp, emin, prec, emax; lia).
  assert (Hrec : shr_m (shr_record_of_loc m l) = m) by (by destruct l as [|[]]).
  assert (Hstay : e <= 0 /\ 0 <= shr_m (shr_record_of_loc m l) <= 2 ^ (- e)
                  /\ (shr_m (shr_record_of_loc m l) = 2 ^ (- e) ->
                      loc_of_shr_record (shr_record_of_loc m l) = loc_Exact)).
  { rewrite Hrec. split_and!; [done|done|done|]. intros Heq. by rewrite (Hx Heq). }
  destruct n as [|p|p] eqn:Hp; [by eexists _, _| |by eexists _, _].
  destruct (iter_shr_1 p (shr_record_of_loc m l)) as (E & P & X);
    [rewrite Hrec; lia|].
  rewrite Hrec in E, X.
  eexists _, _. split; [reflexivity|].
  assert (Hpow : 2 ^ (- e) = 2 ^ (- (e + Z.pos p)) * 2 ^ Z.pos p)
    by (rewrite <- Z.pow_add_r by lia; f_equal; lia).
  assert (0 < 2 ^ Z.pos p) by (apply Z.pow_pos_nonneg; lia).
  assert (0 < 2 ^ (- (e + Z.pos p))) by (apply Z.pow_pos_nonneg; lia).
  split_and!; [lia|done| |].
  - rewrite E. apply Z.div_le_upper_bound; [lia|]. rewrite Z.mul_comm, <- Hpow. done.
  - intros Heq. rewrite E in Heq.
    assert (Hfull : m = 2 ^ (- e)).
    { pose proof (Z.mul_div_le m (2 ^ Z.pos p) ltac:(lia)) as Hdiv.
      rewrite Heq in Hdiv. lia. }
    specialize (Hx Hfull). subst l.
    destruct X as [Hr Hs]; [done|done| |].
    + rewrite Hfull, Hpow. apply Z.mod_mul. lia.
    + destruct (SpecFloat.iter_pos shr_1 p _) as [m' r' s'].
      simpl in Hr, Hs. by subst.
Qed.

(** Rounding a value that is at most 1 gives a number that is at most 1. *)
Lemma binary_round_aux_le_one (q e : Z) (l : location) :
  0 <= q -> e <= 0 -> q <= 2 ^ (- e) -> (q = 2 ^ (- e) -> l = loc_Exact) ->
  inUnitInterval (binary_round_aux prec emax false q e l).
Proof.
  intros Hq He Hle Hx. unfold binary_round_aux.
  destruct (shr_fexp_le_one q e l) as (mrs1 & e1 & -> & He1 & Hm1 & Hx1); [done..|].
  pose proof (round_nearest_even_bounds (shr_m mrs1) (loc_of_shr_record mrs1))
    as [Hb Hbx].
  set (mb := round_nearest_even (shr_m mrs1) (loc_of_shr_record mrs1)) in *.
  assert (Hmb : mb <= 2 ^ (- e1)).
  { destruct (Z.eq_dec (shr_m mrs1) (2 ^ (- e1))) as [Heq|Hne]; [|lia].
    rewrite Hbx by (by apply Hx1). lia. }
  destruct (shr_fexp_le_one mb e1 loc_Exact) as (mrs2 & e2 & -> & He2 & Hm2 & _);
    [lia|done|done|done|].
  destruct (shr_m mrs2) as [|m2|m2] eqn:Hm; [done| |lia].
  destruct (Z.leb_spec e2 (emax - prec)); [simpl; lia|].
  unfold emax, prec in *. lia.
Qed.

Lemma new_location_exact (nb_steps : Z) : new_location nb_steps 0 = loc_Exact.
Proof. unfold new_location. by destruct (Z.even nb_steps). Qed.

(** A quotient of positive numbers [x <= y] is at most 1. *)
Lemma div_le_one (m1 m2 : positive) (e1 e2 : Z) :
  e1 <= 0 -> e2 <= 0 -> Z.pos m1 * 2 ^ (- e2) <= Z.pos m2 * 2 ^ (- e1) ->
  inUnitInterval (div (S754_finite false m1 e1) (S754_finite false m2 e2)).
Proof.
  intros He1 He2 Hxy. unfold div, SFdiv, SFdiv_core_binary.
  change (Zdigits2 (Z.pos m1)) with (Z.pos (digits2_pos m1)).
  change (Zdigits2 (Z.pos m2)) with (Z.pos (digits2_pos m2)).
  pose proof (digits2_pos_bounds m1) as [Hlo1 _].
  pose proof (digits2_pos_bounds m2) as [_ Hhi2].
  set (d1 := Z.pos (digits2_pos m1)) in *.
  set (d2 := Z.pos (digits2_pos m2)) in *.
  assert (B : 0 < 2 ^ (- e2)) by (apply Z.pow_pos_nonneg; lia).
  assert (C : 0 < 2 ^ (- e1)) by (apply Z.pow_pos_nonneg; lia).
  assert (Hd : d1 + e1 <= d2 + e2).
  { assert (Hlt : 2 ^ (d1 - 1 - e2) < 2 ^ (d2 - e1)).
    { replace (d1 - 1 - e2) with ((d1 - 1) + - e2) by lia.
      replace (d2 - e1) with (d2 + - e1) by lia.
      rewrite !Z.pow_add_r by (subst d1 d2; lia). nia. }
    apply Z.pow_lt_mono_r_iff in Hlt; [lia|lia|subst d2; lia]. }
  set (e' := Z.min (fexp prec emax (d1 + e1 - (d2 + e2))) (e1 - e2)).
  assert (He' : e' <= -53) by (subst e'; unfold fexp, emin, prec, emax; lia).
  set (s := e1 - e2 - e').
  assert (Hs : 0 <= s) by (subst s e'; lia).
  set (m' := match s with
             | 0 => Z.pos m1
             | Z.pos _ => Z.shiftl (Z.pos m1) s
             | Z.neg _ => 0
             end).
  assert (Hm' : m' = Z.pos m1 * 2 ^ s).
  { subst m'. destruct s as [|k|k] eqn:Hk; [simpl; lia| |lia].
    apply Z.shiftl_mul_pow2. lia. }
  assert (A : 0 < 2 ^ s) by (apply Z.pow_pos_nonneg; lia).
  assert (T : 0 < 2 ^ (- e')) by (apply Z.pow_pos_nonneg; lia).
  assert (Hpow : 2 ^ (- e') * 2 ^ (- e2) = 2 ^ s * 2 ^ (- e1)).
  { rewrite <- !Z.pow_add_r by lia. f_equal. subst s. lia. }
  assert (Hbound : m' <= Z.pos m2 * 2 ^ (- e')).
  { rewrite Hm'. apply (Z.mul_le_mono_pos_r _ _ (2 ^ (- e2))); [done|]. nia. }
  pose proof (Z_div_mod m' (Z.pos m2) ltac:(lia)) as Hdiv.
  destruct (Z.div_eucl m' (Z.pos m2)) as [q r]. destruct Hdiv as [Hq Hr].
  simpl xorb. apply binary_round_aux_le_one.
  - nia.
  - lia.
  - nia.
  - intros Heq. assert (r = 0) by nia. subst r. apply new_location_exact.
Qed.

Lemma quotient_in_unit_interval (unused content : Z) :
  0 < unused <= content -> content < 2 ^ 53 ->
  inUnitInterval (div (of_Z unused) (of_Z content)).
Proof.
  intros Hu Hc.
  destruct (of_Z_exact content) as (m2 & e2 & -> & He2 & Hm2); [lia|].
  destruct (of_Z_exact unused) as (m1 & e1 & -> & He1 & Hm1); [lia|].
  apply div_le_one; [done|done|]. rewrite Hm1, Hm2.
  assert (0 < 2 ^ (- e1)) by (apply Z.pow_pos_nonneg; lia).
  assert (0 < 2 ^ (- e2)) by (apply Z.pow_pos_nonneg; lia). nia.
Qed.

(** The ratio of two integers [0 <= unused <= content < 2^53]. *)
Lemma ratio_in_unit_interval (unused content : Z) :
  0 <= unused <= content -> content < 2 ^ 53 ->
  inUnitInterval (Number.or (div (of_Z unused) (of_Z content)) (of_Z 0)).
Proof.
  intros Hu Hc. destruct (Z.eq_dec content 0) as [->|Hc0].
  { assert (unused = 0) as -> by lia. by vm_compute. }
  destruct (Z.eq_dec unused 0) as [->|Hu0].
  { destruct (of_Z_exact content) as (m2 & e2 & -> & _); [lia|done]. }
  pose proof (quotient_in_unit_interval unused content ltac:(lia) Hc) as Hq.
  unfold Number.or.
  by destruct (div (of_Z unused) (of_Z content)) as [?|?| |[] ? ?].
Qed.



End RatioBound.

(** ** Sums of lengths as binary64 numbers *)

Section ExactSums.








End ExactSums.

Lemma computeWaste_lengths (c : ScriptCoverage) :
  0 <= unusedLength (computeWaste c) <= contentLength (computeWaste c)
  /\ Z.of_nat (length (unusedByIndex (computeWaste c))) = contentLength (computeWaste c).
Proof.
  assert (Hnn : 0 <= contentLength (computeWaste c))
    by (rewrite maximumEndOffset_flat; apply Math_max_lower).
  assert (Hlen : Z.of_nat (length (unusedByIndex (computeWaste c)))
                 = contentLength (computeWaste c)).
  { rewrite unusedByIndex_flat, length_markRanges, length_make. lia. }
  assert (Hu : unusedLength (computeWaste c)
               = countUnused (unusedByIndex (computeWaste c))).
  { change (unusedLength (computeWaste c))
      with (fold_left (fun unused x => unused + x) (unusedByIndex (computeWaste c)) 0).
    rewrite sum_bits by apply bits_markRanges. lia. }
  pose proof (countUnused_bound (unusedByIndex (computeWaste c))). lia.
Qed.

Lemma sums_of_computeWaste (coverages : list ScriptCoverage) :
  0 <= sumUnused (map computeWaste coverages)
    <= sumContent (map computeWaste coverages).
Proof.
  induction coverages as [|c cs IH]; simpl; [done|].
  rewrite sumUnused_cons, sumContent_cons.
  pose proof (computeWaste_lengths c). lia.
Qed.



(** C9. The waste data of every script coverage has
    [0 <= unusedLength <= contentLength] and a bitmap of [contentLength]
    bytes.  Hence the sums over the waste data of any list of coverages have
    [0 <= unused <= content], and the ratio of [mergeWaste] (for sums below
    [2^53], which the binary64 format holds exactly) lies between 0 and 1. *)
Theorem computeWaste_invariant (c : ScriptCoverage) (coverages : list ScriptCoverage) :
  let w := computeWaste c in
  let wasteData := map computeWaste coverages in
  0 <= unusedLength w <= contentLength w
  /\ Z.of_nat (length (unusedByIndex w)) = contentLength w
  /\ 0 <= sumUnused wasteData <= sumContent wasteData
  /\ (sumContent wasteData < 2 ^ 53 -> inUnitInterval (wastedRatio wasteData)).
Proof.
  intros w wasteData. subst w wasteData.
  destruct (computeWaste_lengths c) as [Hu Hlen].
  pose proof (sums_of_computeWaste coverages) as Hsums.
  split_and!; [lia|lia|done|lia|lia|].
  intros Hc. by apply ratio_in_unit_interval.
Qed.

Lemma computeWaste_invariant_witness :
  inUnitInterval (wastedRatio (map computeWaste [executionA; executionB])).
Proof.
  apply (computeWaste_invariant executionA [executionA; executionB]).
  vm_compute. reflexivity.
Defined.

(** ** The examples of the description, run on the embedding *)

(** [Math.round]: ties go up, the sign of a zero result is kept. *)
Example Math_round_examples :
  Math_round (div (of_Z 5) (of_Z 2)) = of_Z 3
  /\ Math_round (div (of_Z (-5)) (of_Z 2)) = of_Z (-2)
  /\ Math_round (div (of_Z (-1)) (of_Z 2)) = S754_zero true
  /\ Math_round (div (of_Z 1) (of_Z 3)) = zero
  /\ Math_round (div (of_Z 2000) (of_Z 3)) = of_Z 667.
Proof. by vm_compute. Qed.

(** Array-index keys come first, in ascending order, whenever they are
    written; the other keys follow as they were written. *)
Example property_order :
  JSObject.entries
    (JSObject.set "1" (JSObject.VNum 4) (JSObject.set "a.js" (JSObject.VNum 3)
       (JSObject.set "10" (JSObject.VNum 2) (JSObject.set "b.js" (JSObject.VNum 1) []))))
  = [("1", JSObject.VNum 4); ("10", JSObject.VNum 2);
     ("b.js", JSObject.VNum 1); ("a.js", JSObject.VNum 3)].
Proof. reflexivity. Qed.

(** One execution, fully unused, of a script of 100 bytes transferred in 1000
    bytes. *)
Example end_to_end_fully_unused :
  compute_ (fun _ : unit => "https://example.com/a.js"%string)
           (fun _ _ _ => of_Z 1000) (mkInput tt [executionA] None)
  = mkSummary "https://example.com/a.js" (of_Z 1000) (of_Z 1000) (of_Z 100) missing.
Proof. by vm_compute. Qed.

(** Two lines of 50 bytes, the first of [a.js] and never run, the second of
    [b.js] and run. *)
Example end_to_end_attribution :
  sourcesWastedBytes
    (compute_ (fun _ : unit => "https://example.com/bundle.js"%string)
       (fun _ _ _ => of_Z 1000)
       (mkInput tt
          [mkScript [mkFunction [mkRange 0 50 0; mkRange 50 100 1]]]
          (Some (mkBundle (Some twoLines)
                   [mkMapping 0 0 None "a.js"; mkMapping 1 0 None "b.js"]))))
  = present (Some [("a.js", JSObject.VNum 50)]).
Proof. by vm_compute. Qed.

(** * Further properties of the code *)

(** ** The range marker: what the order and the executed ranges do not change *)

Lemma Math_max_perm (xs ys : list Z) (m : Z) :
  Permutation xs ys -> Math_max m xs = Math_max m ys.
Proof.
  assert (Hle : forall xs ys, Permutation xs ys -> Math_max m xs <= Math_max m ys).
  { intros l l' Hp. destruct (Math_max_attained l m) as [->|Hin].
    - apply Math_max_lower.
    - apply Math_max_upper. by eapply Permutation_in. }
  intros Hp. apply Z.le_antisymm; apply Hle; [done|by symmetry].
Qed.

Lemma existsb_perm {A : Type} (f : A -> bool) (l l' : list A) :
  Permutation l l' -> existsb f l = existsb f l'.
Proof.
  intros Hp. apply eq_true_iff_eq. rewrite !existsb_exists.
  split; intros (x & Hin & Hx); exists x; (split; [|done]).
  - by eapply Permutation_in.
  - eapply Permutation_in; [symmetry|]; done.
Qed.

(** Waste data are determined by the length and by which offsets lie in an
    unexecuted range. *)
Lemma computeWaste_ext (c c' : ScriptCoverage) :
  contentLength (computeWaste c) = contentLength (computeWaste c') ->
  (forall j, 0 <= j ->
     existsb (inUnexecuted j) (allRanges c) = existsb (inUnexecuted j) (allRanges c')) ->
  computeWaste c = computeWaste c'.
Proof.
  intros Hcl Hcov.
  assert (Hbm : unusedByIndex (computeWaste c) = unusedByIndex (computeWaste c')).
  { rewrite !unusedByIndex_flat, Hcl. apply get_ext.
    - by rewrite !length_markRanges.
    - intros j Hj. rewrite length_markRanges in Hj.
      rewrite !get_markRanges by done. by rewrite Hcov by lia. }
  rewrite (computeWaste_eta c), Hbm, Hcl. symmetry. apply computeWaste_eta.
Qed.

(** X1. The result of [computeWaste] does not depend on the order of the
    ranges nor on how they are grouped into functions: two coverages with the
    same ranges, in any order and grouping, have the same waste data. *)
Theorem computeWaste_range_order (c c' : ScriptCoverage) :
  Permutation (allRanges c) (allRanges c') -> computeWaste c = computeWaste c'.
Proof.
  intros Hp. apply computeWaste_ext.
  - rewrite !maximumEndOffset_flat. apply Math_max_perm. by apply Permutation_map.
  - intros j _. by apply existsb_perm.
Qed.

Lemma computeWaste_range_order_witness :
  computeWaste (mkScript [mkFunction [mkRange 0 5 1; mkRange 1 3 0];
                          mkFunction [mkRange 4 6 0]])
  = computeWaste (mkScript [mkFunction [mkRange 4 6 0; mkRange 1 3 0; mkRange 0 5 1]]).
Proof.
  apply computeWaste_range_order. simpl.
  apply Permutation_sym, (Permutation_cons_app [_; _] []). simpl.
  apply Permutation_sym, (Permutation_cons_app [_] []). done.
Defined.

Lemma get_bitmap (c : ScriptCoverage) (j : Z) :
  0 <= j < contentLength (computeWaste c) ->
  Uint8Array.get (unusedByIndex (computeWaste c)) j
  = Some (if existsb (inUnexecuted j) (allRanges c) then 1 else 0).
Proof.
  intros Hj. rewrite unusedByIndex_flat.
  rewrite get_markRanges by (rewrite length_make; lia).
  destruct (existsb _ _); [done|]. by apply get_make.
Qed.

Lemma unexecuted_below_length (c : ScriptCoverage) (j : Z) :
  existsb (inUnexecuted j) (allRanges c) = true -> j < contentLength (computeWaste c).
Proof.
  intros Hex. apply existsb_exists in Hex as (r & Hin & Hr).
  unfold inUnexecuted in Hr. apply andb_true_iff in Hr as [_ Hlt].
  apply Z.ltb_lt in Hlt. rewrite maximumEndOffset_flat.
  assert (endOffset r <= Math_max 0 (map endOffset (allRanges c)))
    by (apply Math_max_upper; by apply in_map). lia.
Qed.

Lemma sum_zeros (n : nat) (acc : Z) :
  fold_left (fun unused x => unused + x) (replicate n 0) acc = acc.
Proof.
  revert acc. induction n as [|n IH]; intros acc; simpl; [done|].
  rewrite IH. lia.
Qed.

Lemma executed_not_unexecuted (extra : list Range) (j : Z) :
  (forall r, In r extra -> count r <> 0) -> existsb (inUnexecuted j) extra = false.
Proof.
  intros Hex. induction extra as [|r rs IH]; simpl; [done|].
  rewrite IH by (intros r' Hr'; apply Hex; by right).
  unfold inUnexecuted. destruct (Z.eqb_spec (count r) 0) as [Hc|_]; [|done].
  exfalso. by apply (Hex r); [left|].
Qed.

(** X2. Ranges that were executed never clear a byte and never set one: a
    coverage extended by a function whose ranges all have a count other than 0
    keeps its bitmap, lengthened by zeros up to the largest end of the new
    ranges, and keeps its unused length.  So an executed range nested in an
    unexecuted one leaves all of the outer range unused. *)
Theorem executed_ranges_only_extend (c : ScriptCoverage) (extra : list Range) :
  (forall r, In r extra -> count r <> 0) ->
  let w := computeWaste c in
  let w' := computeWaste (mkScript (functions c ++ [mkFunction extra])) in
  contentLength w' = Math_max (contentLength w) (map endOffset extra)
  /\ unusedByIndex w'
     = unusedByIndex w ++ replicate (Z.to_nat (contentLength w' - contentLength w)) 0
  /\ unusedLength w' = unusedLength w.
Proof.
  intros Hex w w'. subst w w'.
  set (c' := mkScript (functions c ++ [mkFunction extra])).
  assert (Hall : allRanges c' = allRanges c ++ extra).
  { unfold allRanges, c'. simpl. rewrite flat_map_app. simpl. by rewrite app_nil_r. }
  assert (Hcl : contentLength (computeWaste c')
                = Math_max (contentLength (computeWaste c)) (map endOffset extra)).
  { rewrite !maximumEndOffset_flat, Hall, map_app. unfold Math_max.
    by rewrite fold_left_app. }
  pose proof (Math_max_lower (map endOffset extra) (contentLength (computeWaste c)))
    as Hgrow.
  destruct (computeWaste_lengths c) as [Hu Hlen].
  destruct (computeWaste_lengths c') as [Hu' Hlen'].
  assert (Hbm : unusedByIndex (computeWaste c')
                = unusedByIndex (computeWaste c)
                  ++ replicate (Z.to_nat (contentLength (computeWaste c')
                                          - contentLength (computeWaste c))) 0).
  { apply get_ext.
    - rewrite length_app, length_replicate. lia.
    - intros j Hj. rewrite get_bitmap by lia.
      rewrite Hall, existsb_app, (executed_not_unexecuted extra j Hex), orb_false_r.
      destruct (Z.lt_ge_cases j (contentLength (computeWaste c))) as [Hlt|Hge].
      + rewrite <- get_bitmap by lia. unfold Uint8Array.get.
        destruct (0 <=? j); [|done]. rewrite lookup_app_l by lia. done.
      + destruct (existsb (inUnexecuted j) (allRanges c)) eqn:Hcov.
        { apply unexecuted_below_length in Hcov. lia. }
        unfold Uint8Array.get. destruct (Z.leb_spec 0 j); [|lia].
        rewrite lookup_app_r by lia. symmetry. apply lookup_replicate_2. lia. }
  split_and!; [done|done|].
  change (unusedLength (computeWaste c'))
    with (fold_left (fun unused x => unused + x) (unusedByIndex (computeWaste c')) 0).
  rewrite Hbm, fold_left_app, sum_zeros. done.
Qed.

Lemma executed_ranges_only_extend_witness :
  unusedByIndex
    (computeWaste (mkScript [mkFunction [mkRange 0 4 0]; mkFunction [mkRange 1 6 2]]))
  = [1; 1; 1; 1; 0; 0].
Proof.
  destruct (executed_ranges_only_extend (mkScript [mkFunction [mkRange 0 4 0]])
              [mkRange 1 6 2]) as (_ & Hbm & _).
  - intros r [<-|[]]. discriminate.
  - exact Hbm.
Defined.

(** ** The two ends of the scale: nothing unused, everything unused *)

Lemma compute__fields {NetworkRequest : Type}
    (networkRecord_url : NetworkRequest -> string)
    (estimateTransferSize : NetworkRequest -> Z -> string -> number)
    (data : ComputeInput) :
  let wasteData := map computeWaste (scriptCoverages data) in
  let summary := compute_ networkRecord_url estimateTransferSize data in
  let transfer :=
    estimateTransferSize (networkRecord data) (sumContent wasteData) "Script" in
  url summary = networkRecord_url (networkRecord data)
  /\ totalBytes summary = transfer
  /\ wastedBytes summary = Math_round (mul transfer (wastedRatio wasteData))
  /\ wastedPercent summary = mul (of_Z 100) (wastedRatio wasteData).
Proof. unfold compute_. by destruct (bundle data). Qed.

Lemma markRanges_executed (rs : list Range) (a : list Z) :
  (forall r, In r rs -> count r <> 0) -> fold_left markRange rs a = a.
Proof.
  revert a. induction rs as [|r rs IH]; intros a Hex; simpl; [done|].
  rewrite IH by (intros r' Hr'; apply Hex; by right).
  unfold markRange. destruct (Z.eqb_spec (count r) 0) as [Hc|_]; [|done].
  exfalso. by apply (Hex r); [left|].
Qed.

Lemma executed_coverage_bitmap (c : ScriptCoverage) :
  (forall r, In r (allRanges c) -> count r <> 0) ->
  unusedByIndex (computeWaste c) = Uint8Array.make (contentLength (computeWaste c))
  /\ unusedLength (computeWaste c) = 0.
Proof.
  intros Hex.
  assert (Hbm : unusedByIndex (computeWaste c)
                = Uint8Array.make (contentLength (computeWaste c)))
    by (rewrite unusedByIndex_flat; by apply markRanges_executed).
  split; [done|].
  change (unusedLength (computeWaste c))
    with (fold_left (fun unused x => unused + x) (unusedByIndex (computeWaste c)) 0).
  rewrite Hbm. apply sum_zeros.
Qed.

Lemma unusedAt_zeros (offset : Num.t) (data : WasteData) (n : Z) :
  unusedByIndex data = Uint8Array.make n -> unusedAt offset data = false.
Proof.
  intros Hbm. apply unusedAt_no_ones. rewrite Hbm. unfold Uint8Array.make.
  induction (Z.to_nat n) as [|k IH]; simpl; done.
Qed.

Lemma ratio_without_unused (wasteData : list WasteData) :
  sumUnused wasteData = 0 -> wastedRatio wasteData = zero.
Proof.
  intros Hu. unfold wastedRatio. rewrite Hu.
  change (of_Z 0) with (S754_zero false).
  by destruct (of_Z (sumContent wasteData)) as [?|?| |? ? ?].
Qed.

Lemma sumUnused_zero (wasteData : list WasteData) :
  (forall w, In w wasteData -> unusedLength w = 0) -> sumUnused wasteData = 0.
Proof.
  induction wasteData as [|w ws IH]; intros Hz; [done|].
  rewrite sumUnused_cons, IH by (intros w' Hw'; apply Hz; by right).
  rewrite (Hz w) by (by left). done.
Qed.

(** X3. When no range of any execution has count 0, nothing is reported as
    wasted: every unused length is 0, the percentage is 0, the wasted bytes
    are 0 for a finite transfer size, and with at least one execution and a
    bundle that has text the attribution to sources is the empty mapping. *)
Theorem nothing_unexecuted_nothing_wasted {NetworkRequest : Type}
    (networkRecord_url : NetworkRequest -> string)
    (estimateTransferSize : NetworkRequest -> Z -> string -> number)
    (data : ComputeInput) :
  (forall c, In c (scriptCoverages data) ->
     forall r, In r (allRanges c) -> count r <> 0) ->
  let summary := compute_ networkRecord_url estimateTransferSize data in
  (forall c, In c (scriptCoverages data) -> unusedLength (computeWaste c) = 0)
  /\ wastedPercent summary = zero
  /\ (is_finite (totalBytes summary) = true ->
      exists sign, wastedBytes summary = S754_zero sign)
  /\ (scriptCoverages data <> [] ->
      forall b text, bundle data = Some b -> script_content b = Some text ->
        text <> EmptyString ->
        sourcesWastedBytes summary = present (Some [])).
Proof.
  intros Hex summary. subst summary.
  destruct (compute__fields networkRecord_url estimateTransferSize data)
    as (_ & Htotal & Hbytes & Hpercent).
  assert (Hzero : forall c, In c (scriptCoverages data) ->
                    unusedLength (computeWaste c) = 0).
  { intros c Hc. by apply executed_coverage_bitmap, Hex. }
  assert (Hratio : wastedRatio (map computeWaste (scriptCoverages data)) = zero).
  { apply ratio_without_unused, sumUnused_zero. intros w Hw.
    apply in_map_iff in Hw as (c & <- & Hc). by apply Hzero. }
  split_and!; [done| | |].
  - by rewrite Hpercent, Hratio.
  - rewrite Hbytes, Htotal, Hratio. intros Hfin.
    destruct (mul_zero_finite _ Hfin) as [sign ->]. by exists sign.
  - intros Hne b text Hb Htext Hnonempty.
    rewrite compute__sourcesWastedBytes, Hb. cbv zeta. f_equal.
    rewrite createSourceWastedBytes_never.
    + rewrite Htext. by destruct text.
    + intros offset. destruct (scriptCoverages data) as [|c cs] eqn:Hcs; [done|].
      apply (unusedInEvery_used _ (computeWaste c)); [by left|].
      eapply unusedAt_zeros, executed_coverage_bitmap, Hex. by left.
Qed.

Lemma nothing_unexecuted_nothing_wasted_witness :
  wastedPercent
    (compute_ (fun _ : unit => "https://example.com/a.js"%string)
              (fun _ _ _ => of_Z 1000) (mkInput tt [executionB] None))
  = zero.
Proof.
  apply (nothing_unexecuted_nothing_wasted
           (fun _ : unit => "https://example.com/a.js"%string)
           (fun _ _ _ => of_Z 1000) (mkInput tt [executionB] None)).
  intros c [<-|[]] r [<-|[]]. discriminate.
Defined.

(** An integer of [1 .. 2^53 - 1] as a binary64 number: a mantissa of 53
    digits and an exponent of [-52 .. 0]. *)
Lemma of_Z_canonical (z : Z) :
  0 < z < 2 ^ 53 ->
  exists m e,
    of_Z z = S754_finite false m e
    /\ Z.pos (digits2_pos m) = 53 /\ -52 <= e <= 0 /\ Z.pos m = z * 2 ^ (- e).
Proof.
  intros [Hpos Hlt]. destruct z as [|p|p]; [lia| |lia].
  pose proof (digits2_pos_bounds p) as [Hlo Hhi].
  set (d := Z.pos (digits2_pos p)) in *.
  assert (Hd : 1 <= d <= 53).
  { split; [subst d; lia|].
    destruct (Z.le_gt_cases d 53) as [|Hgt]; [done|].
    assert (2 ^ 53 <= 2 ^ (d - 1)) by (apply Z.pow_le_mono_r; lia). lia. }
  unfold of_Z, binary_normalize, binary_round, shl_align, fexp, emin, prec, emax.
  fold d. replace (Z.max (d + 0 - 53) (3 - 1024 - 53) - 0) with (d - 53) by lia.
  replace (Z.max (d + 0 - 53) (3 - 1024 - 53)) with (d - 53) by lia.
  destruct (d - 53) as [|k|k] eqn:Hk; [|lia|].
  - exists p, 0. assert (Hd53 : Z.pos (digits2_pos p) = 53) by (fold d; lia).
    split_and!; [|done|lia|lia|simpl; lia].
    apply (binary_round_aux_canonical false p 0); [done|lia].
  - exists (Pos.iter xO p k), (Z.neg k).
    assert (Hval : Z.pos (Pos.iter xO p k) = Z.pos p * 2 ^ Z.pos k) by apply iter_xO.
    assert (Hdig : Z.pos (digits2_pos (Pos.iter xO p k)) = 53).
    { apply digits2_pos_unique. rewrite Hval.
      assert (E1 : 2 ^ (53 - 1) = 2 ^ (d - 1) * 2 ^ Z.pos k)
        by (rewrite <- Z.pow_add_r by lia; f_equal; lia).
      assert (E2 : 2 ^ 53 = 2 ^ d * 2 ^ Z.pos k)
        by (rewrite <- Z.pow_add_r by lia; f_equal; lia).
      rewrite E1, E2.
      assert (0 < 2 ^ Z.pos k) by (apply Z.pow_pos_nonneg; lia). nia. }
    split_and!; [|done|lia|lia|by rewrite Hval].
    apply (binary_round_aux_canonical false); [done|lia].
Qed.

Lemma div_eucl_multiple (b q : Z) : 0 < b -> Z.div_eucl (b * q) b = (q, 0).
Proof.
  intros Hb. pose proof (Z_div_mod (b * q) b ltac:(lia)) as Hdm.
  destruct (Z.div_eucl (b * q) b) as [q' r']. destruct Hdm as [Heq Hr].
  assert (q' = q) by nia. subst q'. f_equal. lia.
Qed.

(** A positive binary64 number divided by itself is 1. *)
Lemma div_self (m : positive) (e : Z) :
  Z.pos (digits2_pos m) = 53 ->
  div (S754_finite false m e) (S754_finite false m e) = of_Z 1.
Proof.
  intros Hd. unfold div, SFdiv, SFdiv_core_binary.
  change (Zdigits2 (Z.pos m)) with (Z.pos (digits2_pos m)). rewrite Hd.
  replace (53 + e - (53 + e)) with 0 by lia.
  replace (e - e) with 0 by lia.
  change (Z.min (fexp prec emax 0) 0) with (-53).
  change (0 - -53) with 53.
  cbv beta iota zeta.
  rewrite Z.shiftl_mul_pow2 by lia.
  rewrite div_eucl_multiple by lia.
  rewrite new_location_exact. by vm_compute.
Qed.

(** A positive binary64 number times 1 is itself. *)
Lemma mul_one (m : positive) (e : Z) :
  Z.pos (digits2_pos m) = 53 -> -1022 <= e <= 971 ->
  mul (S754_finite false m e) (of_Z 1) = S754_finite false m e.
Proof.
  intros Hd He.
  change (of_Z 1) with (S754_finite false 4503599627370496 (-52)).
  unfold mul, SFmul. simpl xorb.
  pose proof (digits2_pos_bounds m) as [Hlo Hhi]. rewrite Hd in Hlo, Hhi.
  assert (Hprod : Z.pos (m * 4503599627370496) = Z.pos m * 2 ^ 52) by (rewrite Pos2Z.inj_mul; reflexivity).
  assert (E52 : 2 ^ 52 = 4503599627370496) by reflexivity.
  assert (Hdp : Zdigits2 (Z.pos (m * 4503599627370496)) = 105).
  { apply digits2_pos_unique. rewrite Hprod.
    replace (2 ^ (105 - 1)) with (2 ^ 52 * 2 ^ 52) by reflexivity.
    replace (2 ^ 105) with (2 ^ 53 * 2 ^ 52) by reflexivity.
    replace (2 ^ (53 - 1)) with (2 ^ 52) in Hlo by reflexivity.
    rewrite E52 in *. nia. }
  unfold binary_round_aux, shr_fexp. rewrite Hdp.
  replace (fexp prec emax (105 + (e + -52)) - (e + -52)) with 52
    by (unfold fexp, emin, prec, emax; lia).
  unfold shr at 1.
  destruct (iter_shr_1 52 (shr_record_of_loc (Z.pos (m * 4503599627370496)) loc_Exact))
    as (Em & _ & Ex); [done|].
  cbn [shr_record_of_loc shr_m shr_r shr_s] in Em, Ex.
  destruct Ex as [Er Es]; [done|done| |].
  { rewrite Hprod. apply Z.mod_mul. lia. }
  rewrite Hprod, Z.div_mul in Em by lia.
  destruct (SpecFloat.iter_pos shr_1 52 _) as [m' r' s'].
  cbn [shr_m shr_r shr_s] in Em, Er, Es. subst m' r' s'.
  cbv beta iota zeta. cbn [shr_m loc_of_shr_record round_nearest_even].
  change (Zdigits2 (Z.pos m)) with (Z.pos (digits2_pos m)). rewrite Hd.
  replace (e + -52 + 52) with e by lia.
  replace (fexp prec emax (53 + e) - e) with 0
    by (unfold fexp, emin, prec, emax; lia).
  cbn [shr shr_record_of_loc shr_m].
  destruct (Z.leb_spec e (emax - prec)); [done|]. unfold emax, prec in *. lia.
Qed.
(** Rounding an integer gives the integer. *)
Lemma Math_round_integer (t : Z) (m : positive) (e : Z) :
  0 < t -> e <= 0 -> Z.pos m = t * 2 ^ (- e) ->
  of_Z t = S754_finite false m e ->
  Math_round (S754_finite false m e) = S754_finite false m e.
Proof.
  intros Ht He Hm Hof. unfold Math_round.
  destruct (Z.leb_spec 0 e); [done|].
  assert (Hd : 0 < 2 ^ (- e)) by (apply Z.pow_pos_nonneg; lia).
  assert (Hr : (2 * Z.pos m + 2 ^ (- e)) / (2 * 2 ^ (- e)) = t).
  { symmetry. apply (Z.div_unique _ _ _ (2 ^ (- e))); [lia|]. rewrite Hm. lia. }
  cbv zeta. rewrite Hr. destruct (Z.eqb_spec t 0); [lia|done].
Qed.

Lemma sum_ones (n : nat) (acc : Z) :
  fold_left (fun unused x => unused + x) (replicate n 1) acc = acc + Z.of_nat n.
Proof.
  revert acc. induction n as [|n IH]; intros acc; [simpl; lia|].
  cbn [replicate fold_left]. rewrite IH. lia.
Qed.

Lemma fully_unexecuted (c : ScriptCoverage) :
  (forall i, 0 <= i < contentLength (computeWaste c) -> coveredUnexecuted c i = true) ->
  unusedLength (computeWaste c) = contentLength (computeWaste c).
Proof.
  intros Hcov. destruct (computeWaste_lengths c) as [Hu Hlen].
  assert (Hbm : unusedByIndex (computeWaste c)
                = replicate (Z.to_nat (contentLength (computeWaste c))) 1).
  { apply get_ext; [rewrite length_replicate; lia|].
    intros j Hj. rewrite get_bitmap by lia.
    fold (coveredUnexecuted c j). rewrite Hcov by lia.
    unfold Uint8Array.get. destruct (Z.leb_spec 0 j); [|lia].
    symmetry. apply lookup_replicate_2. lia. }
  change (unusedLength (computeWaste c))
    with (fold_left (fun unused x => unused + x) (unusedByIndex (computeWaste c)) 0).
  rewrite Hbm, sum_ones. lia.
Qed.

(** X4. When every byte of every execution lies in a range with count 0,
    everything is reported as wasted: each unused length is the content
    length, the percentage is exactly 100 and, for a transfer size that is a
    whole number of bytes, the wasted bytes are the total bytes (content and
    transfer size below [2^53], content not 0). *)
Theorem everything_unexecuted_everything_wasted {NetworkRequest : Type}
    (networkRecord_url : NetworkRequest -> string)
    (estimateTransferSize : NetworkRequest -> Z -> string -> number)
    (data : ComputeInput) (transferSize : Z) :
  let wasteData := map computeWaste (scriptCoverages data) in
  let summary := compute_ networkRecord_url estimateTransferSize data in
  (forall c, In c (scriptCoverages data) ->
     forall i, 0 <= i < contentLength (computeWaste c) -> coveredUnexecuted c i = true) ->
  0 < sumContent wasteData < 2 ^ 53 ->
  estimateTransferSize (networkRecord data) (sumContent wasteData) "Script"
  = of_Z transferSize ->
  0 <= transferSize < 2 ^ 53 ->
  sumUnused wasteData = sumContent wasteData
  /\ wastedPercent summary = of_Z 100
  /\ totalBytes summary = of_Z transferSize
  /\ wastedBytes summary = of_Z transferSize.
Proof.
  intros wasteData summary Hcov Hc Hest Ht. subst summary.
  destruct (compute__fields networkRecord_url estimateTransferSize data)
    as (_ & Htotal & Hbytes & Hpercent).
  fold wasteData in Htotal, Hbytes, Hpercent.
  assert (Hsum : sumUnused wasteData = sumContent wasteData).
  { subst wasteData. clear -Hcov.
    induction (scriptCoverages data) as [|c cs IH]; [done|].
    simpl map. rewrite sumUnused_cons, sumContent_cons.
    rewrite IH by (intros c' Hc'; apply Hcov; by right).
    rewrite (fully_unexecuted c) by (apply Hcov; by left). done. }
  assert (Hratio : wastedRatio wasteData = of_Z 1).
  { unfold wastedRatio. rewrite Hsum.
    destruct (of_Z_canonical (sumContent wasteData) Hc) as (m & e & -> & Hd & _).
    by rewrite div_self. }
  rewrite Hest in *. rewrite Hratio in *.
  split_and!; [done|by rewrite Hpercent|done|].
  rewrite Hbytes. destruct (Z.eq_dec transferSize 0) as [->|Hne]; [done|].
  destruct (of_Z_canonical transferSize ltac:(lia)) as (m & e & Hof & Hd & He & Hm).
  rewrite Hof, mul_one by (done || lia).
  apply (Math_round_integer transferSize); [lia|lia|done|done].
Qed.

Lemma everything_unexecuted_everything_wasted_witness :
  wastedBytes
    (compute_ (fun _ : unit => "https://example.com/a.js"%string)
              (fun _ _ _ => of_Z 1000) (mkInput tt [executionA] None))
  = of_Z 1000.
Proof.
  apply (everything_unexecuted_everything_wasted
           (fun _ : unit => "https://example.com/a.js"%string)
           (fun _ _ _ => of_Z 1000) (mkInput tt [executionA] None) 1000).
  - intros c [<-|[]] i Hi. change (contentLength (computeWaste executionA)) with 100 in Hi.
    unfold coveredUnexecuted, inUnexecuted. simpl.
    destruct (Z.leb_spec 0 i), (Z.ltb_spec i 100); simpl; (reflexivity || lia).
  - vm_compute. split; reflexivity.
  - reflexivity.
  - vm_compute. split; [discriminate|reflexivity].
Defined.

(** ** Source attribution: counts, order, and the list of executions *)

Lemma attributedTo_nonneg (wasteData : list WasteData)
    (lineLengths lineOffsets : list Z) (ms : list Mapping) (k : string) :
  0 <= attributedTo wasteData lineLengths lineOffsets ms k.
Proof.
  unfold attributedTo. induction ms as [|m ms IH]; simpl; [lia|].
  destruct (String.eqb k (sourceURL m)); lia.
Qed.

Lemma attributedTo_source (wasteData : list WasteData)
    (lineLengths lineOffsets : list Z) (ms : list Mapping) (k : string) :
  attributedTo wasteData lineLengths lineOffsets ms k <> 0 ->
  exists m, In m ms /\ sourceURL m = k.
Proof.
  unfold attributedTo. induction ms as [|m ms IH]; simpl; [lia|].
  destruct (String.eqb_spec k (sourceURL m)) as [->|Hne].
  - intros _. exists m. split; [by left|done].
  - intros Hn. destruct IH as (m' & Hin & Hm'); [lia|].
    exists m'. split; [by right|done].
Qed.

Lemma stored_plain (k : string) (n : Z) :
  JSObject.objectPrototype k = None -> 0 <= n ->
  stored k n = if n =? 0 then None else Some (JSObject.VNum n).
Proof.
  intros Hk Hn. unfold stored. rewrite Hk.
  destruct (Z.leb_spec n 0), (Z.eqb_spec n 0); try done; lia.
Qed.

Lemma stored_source (k : string) (n : Z) (v : JSObject.value) :
  stored k n = Some v ->
  1 <= n /\ JSObject.objectPrototype k <> Some JSObject.Accessor.
Proof.
  unfold stored. destruct (Z.leb_spec n 0); [done|]. intros Hv.
  split; [lia|]. intros Hk. by rewrite Hk in Hv.
Qed.

(** X5. For a bundle with text, [createSourceWastedBytes] returns a mapping
    with distinct sources.  The entry of a source is the number of columns,
    over all mappings of that source, whose offset is unused in every
    execution, and a source without such a column has no entry; so every
    such entry is at least 1 and belongs to a source of some mapping.  The
    sources named like a property of [Object.prototype] are the exception:
    [__proto__] never has an entry, and a source named like a built-in
    function has a string, the source text of the function followed by that
    many [1]. *)
Theorem createSourceWastedBytes_attribution (wasteData : list WasteData)
    (bundle : Bundle) (lengths : Lengths) (text : string) :
  script_content bundle = Some text -> text <> EmptyString ->
  exists r,
    createSourceWastedBytes wasteData bundle lengths = Some r
    /\ List.NoDup (keys r)
    /\ (forall k,
          let n := attributedTo wasteData (lineLengthsOf text)
                     (lineOffsetsFrom 0 (lineLengthsOf text)) (mappings bundle) k in
          match JSObject.objectPrototype k with
          | None =>
              JSObject.getOwn r k = if n =? 0 then None else Some (JSObject.VNum n)
          | Some (JSObject.Builtin name) =>
              JSObject.getOwn r k
              = if n =? 0 then None
                else Some (JSObject.VStr (String.append (JSObject.sourceText name)
                                                        (ones (Z.to_nat n))))
          | Some JSObject.Accessor => JSObject.getOwn r k = None
          end)
    /\ (forall k v, In (k, v) r ->
          (exists m, In m (mappings bundle) /\ sourceURL m = k)
          /\ JSObject.objectPrototype k <> Some JSObject.Accessor
          /\ (JSObject.objectPrototype k = None ->
              exists n, v = JSObject.VNum n /\ 1 <= n)).
Proof.
  intros Htext Hne.
  destruct (createSourceWastedBytes_counts wasteData bundle lengths text Htext Hne)
    as (r & Hr & Hnd & Hget & _).
  exists r. split_and!; [done|done| |].
  - intros k n. subst n. rewrite Hget.
    pose proof (attributedTo_nonneg wasteData (lineLengthsOf text)
                  (lineOffsetsFrom 0 (lineLengthsOf text)) (mappings bundle) k) as Hnn.
    set (n := attributedTo _ _ _ _ k) in *.
    destruct (JSObject.objectPrototype k) as [[name|]|] eqn:Hk.
    + unfold stored. rewrite Hk.
      destruct (Z.leb_spec n 0), (Z.eqb_spec n 0); try done; lia.
    + unfold stored. rewrite Hk. by destruct (n <=? 0).
    + by apply stored_plain.
  - intros k v Hin. apply In_get_Some in Hin; [|done]. rewrite Hget in Hin.
    pose proof (stored_source _ _ _ Hin) as [Hn Hk].
    split_and!; [|done|].
    + apply (attributedTo_source wasteData (lineLengthsOf text)
               (lineOffsetsFrom 0 (lineLengthsOf text))). lia.
    + intros Hplain. rewrite stored_plain in Hin by (done || lia).
      destruct (Z.eqb_spec (attributedTo wasteData (lineLengthsOf text)
                  (lineOffsetsFrom 0 (lineLengthsOf text)) (mappings bundle) k) 0);
        [lia|].
      injection Hin as <-. by eexists.
Qed.

Lemma createSourceWastedBytes_attribution_witness :
  exists r,
    createSourceWastedBytes [sixUnused]
      (mkBundle (Some "abcdef")
         [mkMapping 0 0 (Some 2) "a.js"; mkMapping 0 2 (Some 4) "constructor";
          mkMapping 0 4 None "__proto__"])
      (mkLengths 6 6 zero) = Some r
    /\ JSObject.getOwn r "a.js" = Some (JSObject.VNum 2)
    /\ JSObject.getOwn r "constructor"
       = Some (JSObject.VStr "function Object() { [native code] }11")
    /\ JSObject.getOwn r "__proto__" = None.
Proof.
  destruct (createSourceWastedBytes_attribution [sixUnused]
              (mkBundle (Some "abcdef")
                 [mkMapping 0 0 (Some 2) "a.js"; mkMapping 0 2 (Some 4) "constructor";
                  mkMapping 0 4 None "__proto__"])
              (mkLengths 6 6 zero) "abcdef" eq_refl)
    as (r & Hr & _ & Hget & _); [discriminate|].
  exists r. split_and!;
    [exact Hr|apply (Hget "a.js")|apply (Hget "constructor")|apply (Hget "__proto__")].
Defined.

(** X6. For a bundle with text in which no source name is an array index (the
    canonical decimal form of an integer below [2^32 - 1]) or the name of a
    property of [Object.prototype], the sources of the result are listed by
    descending count. *)
Theorem sources_listed_by_descending_count (wasteData : list WasteData)
    (bundle : Bundle) (lengths : Lengths) (text : string) :
  script_content bundle = Some text -> text <> EmptyString ->
  Forall (fun m => JSObject.arrayIndex (sourceURL m) = None
                   /\ JSObject.objectPrototype (sourceURL m) = None)
         (mappings bundle) ->
  exists r,
    createSourceWastedBytes wasteData bundle lengths = Some r /\ descending r.
Proof.
  intros Htext Hne Hni.
  destruct (createSourceWastedBytes_counts wasteData bundle lengths text Htext Hne)
    as (r & Hr & _ & _ & Hdesc).
  exists r. split; [done|by apply Hdesc].
Qed.

Lemma sources_listed_by_descending_count_witness :
  createSourceWastedBytes [sixUnused]
    (mkBundle (Some "abcdef") [mkMapping 0 0 (Some 2) "a.js"; mkMapping 0 2 None "b.js"])
    (mkLengths 6 6 zero)
  = Some [("b.js", JSObject.VNum 4); ("a.js", JSObject.VNum 2)]
  /\ descending [("b.js", JSObject.VNum 4); ("a.js", JSObject.VNum 2)].
Proof.
  destruct (sources_listed_by_descending_count [sixUnused]
              (mkBundle (Some "abcdef")
                 [mkMapping 0 0 (Some 2) "a.js"; mkMapping 0 2 None "b.js"])
              (mkLengths 6 6 zero) "abcdef" eq_refl)
    as (r & Hr & Hdesc); [discriminate|repeat constructor|].
  split; [reflexivity|].
  vm_compute in Hr. injection Hr as <-. exact Hdesc.
Defined.

Lemma filter_length_le {A : Type} (f g : A -> bool) (l : list A) :
  (forall x, f x = true -> g x = true) ->
  (length (List.filter f l) <= length (List.filter g l))%nat.
Proof.
  intros Himp. induction l as [|x l IH]; simpl; [done|].
  destruct (f x) eqn:Hf.
  - rewrite (Himp x Hf). simpl. lia.
  - destruct (g x); simpl; lia.
Qed.

Lemma attributedTo_more_executions (w : WasteData) (wasteData : list WasteData)
    (lineLengths lineOffsets : list Z) (ms : list Mapping) (k : string) :
  attributedTo (w :: wasteData) lineLengths lineOffsets ms k
  <= attributedTo wasteData lineLengths lineOffsets ms k.
Proof.
  unfold attributedTo. induction ms as [|m ms IH]; cbn [map fold_right]; [lia|].
  destruct (String.eqb k (sourceURL m)); [|lia].
  assert (length (unusedColumns (w :: wasteData) lineLengths lineOffsets m)
          <= length (unusedColumns wasteData lineLengths lineOffsets m))%nat.
  { apply filter_length_le. intros c Hc. simpl in Hc.
    by apply andb_true_iff in Hc as [_ Hc]. }
  lia.
Qed.

Lemma attributedTo_covered (wasteData : list WasteData)
    (lineLengths lineOffsets : list Z) (ms : list Mapping) (k : string) :
  attributedTo wasteData lineLengths lineOffsets ms k
  <= coveredColumns lineLengths ms k.
Proof.
  unfold attributedTo, coveredColumns.
  induction ms as [|m ms IH]; cbn [map fold_right]; [lia|].
  destruct (String.eqb k (sourceURL m)); [|lia].
  assert (length (unusedColumns wasteData lineLengths lineOffsets m)
          <= length (columnsOfMapping lineLengths m))%nat
    by apply List.filter_length_le.
  lia.
Qed.

Lemma countOf_stored (r : JSObject.t) (k : string) (n : Z) :
  JSObject.objectPrototype k = None -> 0 <= n ->
  JSObject.getOwn r k = stored k n -> countOf r k = n.
Proof.
  intros Hk Hn Hget. unfold countOf. rewrite Hget, stored_plain by done.
  destruct (Z.eqb_spec n 0); [lia|done].
Qed.

(** X7. One more execution never adds to the bytes attributed to a source:
    for a bundle with text and a source whose name is not that of a property
    of [Object.prototype], the count of the source with the execution [w]
    added is at most its count without it, which is at most the number of
    columns that the mappings of the source cover. *)
Theorem more_executions_less_attribution (w : WasteData)
    (wasteData : list WasteData) (bundle : Bundle) (lengths lengths' : Lengths)
    (text : string) :
  script_content bundle = Some text -> text <> EmptyString ->
  exists r r',
    createSourceWastedBytes wasteData bundle lengths = Some r
    /\ createSourceWastedBytes (w :: wasteData) bundle lengths' = Some r'
    /\ forall k,
         JSObject.objectPrototype k = None ->
         0 <= countOf r' k <= countOf r k
         /\ countOf r k <= coveredColumns (lineLengthsOf text) (mappings bundle) k.
Proof.
  intros Htext Hne.
  destruct (createSourceWastedBytes_counts wasteData bundle lengths text Htext Hne)
    as (r & Hr & _ & Hget & _).
  destruct (createSourceWastedBytes_counts (w :: wasteData) bundle lengths' text
              Htext Hne) as (r' & Hr' & _ & Hget' & _).
  exists r, r'. split_and!; [done|done|]. intros k Hk.
  pose proof (attributedTo_more_executions w wasteData (lineLengthsOf text)
                (lineOffsetsFrom 0 (lineLengthsOf text)) (mappings bundle) k).
  pose proof (attributedTo_covered wasteData (lineLengthsOf text)
                (lineOffsetsFrom 0 (lineLengthsOf text)) (mappings bundle) k).
  pose proof (attributedTo_nonneg (w :: wasteData) (lineLengthsOf text)
                (lineOffsetsFrom 0 (lineLengthsOf text)) (mappings bundle) k).
  specialize (Hget k). specialize (Hget' k).
  set (a' := attributedTo (w :: wasteData) _ _ _ k) in *.
  set (a := attributedTo wasteData _ _ _ k) in *.
  rewrite (countOf_stored r k a), (countOf_stored r' k a') by (done || lia).
  lia.
Qed.

Lemma more_executions_less_attribution_witness :
  exists r r',
    createSourceWastedBytes [sixUnused]
      (mkBundle (Some "abcdef") [mkMapping 0 0 None "a.js"]) (mkLengths 6 6 zero)
    = Some r
    /\ createSourceWastedBytes [computeWaste (mkScript [mkFunction [mkRange 0 2 0]]);
                                sixUnused]
         (mkBundle (Some "abcdef") [mkMapping 0 0 None "a.js"]) (mkLengths 8 8 zero)
       = Some r'
    /\ countOf r' "a.js" <= countOf r "a.js".
Proof.
  destruct (more_executions_less_attribution
              (computeWaste (mkScript [mkFunction [mkRange 0 2 0]])) [sixUnused]
              (mkBundle (Some "abcdef") [mkMapping 0 0 None "a.js"])
              (mkLengths 6 6 zero) (mkLengths 8 8 zero) "abcdef" eq_refl)
    as (r & r' & Hr & Hr' & Hle); [discriminate|].
  exists r, r'. split_and!; [exact Hr|exact Hr'|by apply Hle].
Defined.

(** X13. With an empty list of executions and a bundle that has text, the
    test over all executions holds at every offset: the result is never
    absent, and each source has in it what as many increments leave as its
    mapping entries cover columns, which is that number for a source whose
    name is not that of a property of [Object.prototype]; so the result is
    not empty as soon as one mapping of a source other than [__proto__]
    covers a column. *)
Theorem no_execution_attributes_every_column (bundle : Bundle)
    (lengths : Lengths) (text : string) :
  script_content bundle = Some text -> text <> EmptyString ->
  (forall offset, unusedInEvery [] offset = true)
  /\ exists r,
       createSourceWastedBytes [] bundle lengths = Some r
       /\ (forall k,
             let n := coveredColumns (lineLengthsOf text) (mappings bundle) k in
             JSObject.getOwn r k = stored k n
             /\ (JSObject.objectPrototype k = None ->
                 JSObject.getOwn r k = if n =? 0 then None else Some (JSObject.VNum n)))
       /\ ((exists m, In m (mappings bundle)
                      /\ JSObject.objectPrototype (sourceURL m) <> Some JSObject.Accessor
                      /\ columnsOfMapping (lineLengthsOf text) m <> [])
           -> r <> []).
Proof.
  intros Htext Hne. split; [done|].
  destruct (createSourceWastedBytes_counts [] bundle lengths text Htext Hne)
    as (r & Hr & _ & Hget & _).
  assert (Hget' : forall k, JSObject.getOwn r k
            = stored k (coveredColumns (lineLengthsOf text) (mappings bundle) k)).
  { intros k. by rewrite Hget, attributedTo_no_execution. }
  exists r. split_and!; [done| |].
  - intros k n. subst n. split; [done|]. intros Hk. rewrite Hget'.
    apply stored_plain; [done|apply coveredColumns_nonneg].
  - intros (m & Hin & Hk & Hcols) ->.
    specialize (Hget' (sourceURL m)). simpl in Hget'.
    pose proof (coveredColumns_In (lineLengthsOf text) _ _ Hin) as Hle.
    destruct (columnsOfMapping (lineLengthsOf text) m) as [|c cs]; [done|].
    simpl length in Hle. unfold stored in Hget'.
    destruct (Z.leb_spec (coveredColumns (lineLengthsOf text) (mappings bundle)
                            (sourceURL m)) 0); [lia|].
    by destruct (JSObject.objectPrototype (sourceURL m)) as [[name|]|].
Qed.

Lemma no_execution_attributes_every_column_witness :
  exists r,
    createSourceWastedBytes []
      (mkBundle (Some "abcdef") [mkMapping 0 0 (Some 3) "a.js"; mkMapping 0 3 None "b.js"])
      (mkLengths 0 0 zero) = Some r
    /\ JSObject.getOwn r "a.js" = Some (JSObject.VNum 3)
    /\ JSObject.getOwn r "b.js" = Some (JSObject.VNum 4)
    /\ r <> [].
Proof.
  destruct (no_execution_attributes_every_column
              (mkBundle (Some "abcdef")
                 [mkMapping 0 0 (Some 3) "a.js"; mkMapping 0 3 None "b.js"])
              (mkLengths 0 0 zero) "abcdef" eq_refl)
    as (_ & r & Hr & Hget & Hne); [discriminate|].
  exists r. split_and!;
    [exact Hr|by apply (Hget "a.js")|by apply (Hget "b.js")|].
  apply Hne. exists (mkMapping 0 0 (Some 3) "a.js").
  split_and!; [by left|discriminate|discriminate].
Defined.

(** ** The order of the executions *)

Lemma unusedInEvery_perm (wasteData wasteData' : list WasteData) (offset : Num.t) :
  Permutation wasteData wasteData' ->
  unusedInEvery wasteData offset = unusedInEvery wasteData' offset.
Proof.
  intros Hp. unfold unusedInEvery. apply eq_true_iff_eq. rewrite !forallb_forall.
  split; intros Hall w Hw; apply Hall.
  - eapply Permutation_in; [symmetry|]; done.
  - by eapply Permutation_in.
Qed.

(** The attribution depends on the executions through the test of an offset
    only. *)
Lemma createSourceWastedBytes_same_test (wasteData wasteData' : list WasteData)
    (bundle : Bundle) (lengths lengths' : Lengths) :
  (forall offset, unusedInEvery wasteData offset = unusedInEvery wasteData' offset) ->
  createSourceWastedBytes wasteData bundle lengths
  = createSourceWastedBytes wasteData' bundle lengths'.
Proof.
  intros Htest.
  assert (Hcols : forall k cols st,
            fold_left (fun st (_ : Z) => attributeOffset wasteData k st) cols st
            = fold_left (fun st (_ : Z) => attributeOffset wasteData' k st) cols st).
  { intros k cols. induction cols as [|c cols IH]; intros [files offset]; simpl; [done|].
    by rewrite Htest, IH. }
  assert (Hms : forall lineLengths lineOffsets ms files,
            fold_left (attributeMapping wasteData lineLengths lineOffsets) ms files
            = fold_left (attributeMapping wasteData' lineLengths lineOffsets) ms files).
  { intros lineLengths lineOffsets ms.
    induction ms as [|m ms IH]; intros files; simpl; [done|].
    rewrite IH. unfold attributeMapping. by rewrite Hcols. }
  unfold createSourceWastedBytes.
  destruct (script_content bundle) as [[|c text]|]; [done| |done].
  by rewrite Hms.
Qed.

Lemma sumUnused_perm (wasteData wasteData' : list WasteData) :
  Permutation wasteData wasteData' -> sumUnused wasteData = sumUnused wasteData'.
Proof.
  induction 1 as [|w ws ws' _ IH|w w' ws|ws ws' ws'' _ IH1 _ IH2]; [done| | |congruence].
  - by rewrite !sumUnused_cons, IH.
  - rewrite !sumUnused_cons. lia.
Qed.

Lemma sumContent_perm (wasteData wasteData' : list WasteData) :
  Permutation wasteData wasteData' -> sumContent wasteData = sumContent wasteData'.
Proof.
  induction 1 as [|w ws ws' _ IH|w w' ws|ws ws' ws'' _ IH1 _ IH2]; [done| | |congruence].
  - by rewrite !sumContent_cons, IH.
  - rewrite !sumContent_cons. lia.
Qed.

(** X8. The summary does not depend on the order of the executions: listing
    the same script coverages in another order gives the same result of
    [compute_], the attribution to sources included. *)
Theorem compute__execution_order {NetworkRequest : Type}
    (networkRecord_url : NetworkRequest -> string)
    (estimateTransferSize : NetworkRequest -> Z -> string -> number)
    (data : ComputeInput) (coverages : list ScriptCoverage) :
  Permutation (scriptCoverages data) coverages ->
  compute_ networkRecord_url estimateTransferSize data
  = compute_ networkRecord_url estimateTransferSize
      (mkInput (networkRecord data) coverages (bundle data)).
Proof.
  intros Hp.
  assert (Hw : Permutation (map computeWaste (scriptCoverages data))
                           (map computeWaste coverages)) by by apply Permutation_map.
  unfold compute_, determineLengths, mergeWaste, wastedRatio. simpl.
  rewrite (sumUnused_perm _ _ Hw), (sumContent_perm _ _ Hw).
  destruct (bundle data) as [b|]; [|done]. f_equal. f_equal.
  apply createSourceWastedBytes_same_test. intros offset.
  by apply unusedInEvery_perm.
Qed.

Lemma compute__execution_order_witness :
  compute_ (fun _ : unit => "https://example.com/a.js"%string)
           (fun _ _ _ => of_Z 1000)
           (mkInput tt [executionA; executionB]
              (Some (mkBundle (Some "abcdef") [mkMapping 0 0 None "a.js"])))
  = compute_ (fun _ : unit => "https://example.com/a.js"%string)
             (fun _ _ _ => of_Z 1000)
             (mkInput tt [executionB; executionA]
                (Some (mkBundle (Some "abcdef") [mkMapping 0 0 None "a.js"]))).
Proof.
  apply (compute__execution_order
           (fun _ : unit => "https://example.com/a.js"%string)
           (fun _ _ _ => of_Z 1000)
           (mkInput tt [executionA; executionB]
              (Some (mkBundle (Some "abcdef") [mkMapping 0 0 None "a.js"])))).
  apply perm_swap.
Defined.

(** ** Mappings on lines that the text does not have *)

Lemma unusedInEvery_NaN (w : WasteData) (wasteData : list WasteData) :
  unusedInEvery (w :: wasteData) None = false.
Proof. done. Qed.

Lemma attributeMapping_missing_line (w : WasteData) (wasteData : list WasteData)
    (lineLengths lineOffsets : list Z) (files : JSObject.t) (m : Mapping) :
  Array_get lineOffsets (lineNumber m) = None ->
  attributeMapping (w :: wasteData) lineLengths lineOffsets files m = files.
Proof.
  intros Hline. unfold attributeMapping. rewrite Hline. simpl Num.add.
  generalize (columnsOfMapping lineLengths m). intros cols.
  induction cols as [|c cols IH]; simpl; [done|]. apply IH.
Qed.

Lemma length_lineOffsetsFrom (lineLengths : list Z) (totalSoFar : Z) :
  length (lineOffsetsFrom totalSoFar lineLengths) = length lineLengths.
Proof.
  revert totalSoFar. induction lineLengths as [|len rest IH]; intros t; simpl; [done|].
  by rewrite IH.
Qed.

(** X9. With at least one execution, a mapping whose line number is negative
    or not below the number of lines of the text attributes nothing: the
    result is that of the bundle without such mappings. *)
Theorem mappings_on_missing_lines_are_ignored (w : WasteData)
    (wasteData : list WasteData) (bundle : Bundle) (lengths : Lengths)
    (text : string) :
  script_content bundle = Some text ->
  let onText (m : Mapping) :=
    (0 <=? lineNumber m) && (lineNumber m <? Z.of_nat (length (split_lines text))) in
  createSourceWastedBytes (w :: wasteData) bundle lengths
  = createSourceWastedBytes (w :: wasteData)
      (mkBundle (script_content bundle) (List.filter onText (mappings bundle)))
      lengths.
Proof.
  intros Htext onText. unfold createSourceWastedBytes. simpl script_content.
  rewrite Htext. destruct text as [|c text]; [done|].
  simpl mappings. do 3 f_equal.
  set (lineLengths := map _ (split_lines (String c text))).
  generalize (@nil (string * JSObject.value)). intros files. revert files.
  induction (mappings bundle) as [|m ms IH]; intros files; simpl; [done|].
  destruct (onText m) eqn:Hon; simpl; [by rewrite IH|].
  rewrite attributeMapping_missing_line; [apply IH|].
  unfold Array_get. destruct (Z.leb_spec 0 (lineNumber m)) as [Hnn|]; [|done].
  apply lookup_ge_None_2.
  rewrite length_lineOffsetsFrom. subst lineLengths. rewrite length_map.
  unfold onText in Hon. apply andb_false_iff in Hon as [Hon|Hon].
  - apply Z.leb_gt in Hon. lia.
  - apply Z.ltb_ge in Hon. lia.
Qed.

Lemma mappings_on_missing_lines_are_ignored_witness :
  createSourceWastedBytes [sixUnused]
    (mkBundle (Some "abcdef")
       [mkMapping 0 0 None "a.js"; mkMapping 1 0 (Some 4) "b.js"])
    (mkLengths 6 6 zero)
  = createSourceWastedBytes [sixUnused]
      (mkBundle (Some "abcdef") [mkMapping 0 0 None "a.js"]) (mkLengths 6 6 zero).
Proof.
  apply (mappings_on_missing_lines_are_ignored sixUnused []
           (mkBundle (Some "abcdef")
              [mkMapping 0 0 None "a.js"; mkMapping 1 0 (Some 4) "b.js"])
           (mkLengths 6 6 zero) "abcdef" eq_refl).
Defined.

(** ** The offsets of the lines *)

Lemma split_lines_nonempty (s : string) : split_lines s <> [].
Proof.
  destruct s as [|c s]; simpl; [done|].
  destruct (Ascii.eqb c "010"); [done|]. by destruct (split_lines s).
Qed.

(** Joining the lines with the line terminator gives the text back. *)
Lemma concat_split_lines (s : string) :
  String.concat (String "010" EmptyString) (split_lines s) = s.
Proof.
  induction s as [|c s IH]; [done|]. simpl split_lines.
  pose proof (split_lines_nonempty s) as Hne.
  destruct (Ascii.eqb_spec c "010") as [->|Hc].
  - destruct (split_lines s) as [|line lines]; [done|].
    change (String.concat _ (EmptyString :: line :: lines))
      with (String "010" (String.concat (String "010" EmptyString) (line :: lines))).
    by rewrite IH.
  - destruct (split_lines s) as [|line lines]; [done|].
    destruct lines as [|line' lines].
    + simpl in *. by rewrite IH.
    + change (String.concat _ (String c line :: line' :: lines))
        with (String c (String.concat (String "010" EmptyString)
                          (line :: line' :: lines))).
      by rewrite IH.
Qed.

Lemma length_append (p r : string) :
  String.length (String.append p r) = (String.length p + String.length r)%nat.
Proof. induction p as [|c p IH]; simpl; [done|]. by rewrite IH. Qed.

Lemma substring_prefix (p r : string) :
  substring 0 (String.length p) (String.append p r) = p.
Proof.
  induction p as [|c p IH]; simpl; [by destruct r|]. by rewrite IH.
Qed.

Lemma substring_skip (p r : string) (k n : nat) :
  substring (String.length p + k) n (String.append p r) = substring k n r.
Proof. induction p as [|c p IH]; simpl; done. Qed.

Lemma substring_whole (p : string) : substring 0 (String.length p) p = p.
Proof. induction p as [|c p IH]; simpl; [done|]. by rewrite IH. Qed.

Lemma lineOffsets_in_joined (ls : list string) (base : Z) (i : nat)
    (line : string) (off : Z) :
  ls !! i = Some line ->
  lineOffsetsFrom base (map (fun l => Z.of_nat (String.length l)) ls) !! i = Some off ->
  base <= off
  /\ substring (Z.to_nat (off - base)) (String.length line)
       (String.concat (String "010" EmptyString) ls) = line
  /\ off - base + Z.of_nat (String.length line)
     <= Z.of_nat (String.length (String.concat (String "010" EmptyString) ls)).
Proof.
  revert base i. induction ls as [|l0 rest IH]; intros base i Hline Hoff; [done|].
  destruct i as [|i]; simpl in Hline, Hoff.
  - injection Hline as ->. injection Hoff as <-.
    replace (Z.to_nat (base - base)) with 0%nat by lia.
    destruct rest as [|l1 rest].
    + simpl. rewrite substring_whole. split_and!; [lia|done|lia].
    + change (String.concat _ (line :: l1 :: rest))
        with (String.append line
                (String "010" (String.concat (String "010" EmptyString) (l1 :: rest)))).
      rewrite substring_prefix, length_append. split_and!; [lia|done|lia].
  - destruct rest as [|l1 rest]; [done|].
    destruct (IH _ _ Hline Hoff) as (Hle & Hsub & Hlen).
    change (String.concat _ (l0 :: l1 :: rest))
      with (String.append l0
              (String "010" (String.concat (String "010" EmptyString) (l1 :: rest)))).
    set (joined := String.concat (String "010" EmptyString) (l1 :: rest)) in *.
    rewrite length_append. cbn [String.length].
    replace (Z.to_nat (off - base))
      with (String.length l0
            + S (Z.to_nat (off - (base + (Z.of_nat (String.length l0) + 1)))))%nat
      by lia.
    rewrite substring_skip. cbn [substring]. split_and!; [lia|done|lia].
Qed.

(** X10. The offsets computed for the lines of the text locate them: for each
    line of [content.split('\n')] there is an entry of [lineOffsets] at the
    same index, and the part of the text that starts at that offset and has
    the length of the line is the line, which ends within the text. *)
Theorem lineOffsets_locate_lines (text : string) (i : nat) (line : string) :
  split_lines text !! i = Some line ->
  exists off,
    lineOffsetsFrom 0 (lineLengthsOf text) !! i = Some off
    /\ 0 <= off
    /\ substring (Z.to_nat off) (String.length line) text = line
    /\ off + Z.of_nat (String.length line) <= Z.of_nat (String.length text).
Proof.
  intros Hline.
  assert (Hlt : (i < length (lineOffsetsFrom 0 (lineLengthsOf text)))%nat).
  { unfold lineLengthsOf. rewrite length_lineOffsetsFrom, length_map.
    by eapply lookup_lt_Some. }
  apply lookup_lt_is_Some in Hlt as [off Hoff]. exists off. split; [done|].
  destruct (lineOffsets_in_joined (split_lines text) 0 i line off Hline Hoff)
    as (Hle & Hsub & Hlen).
  rewrite concat_split_lines, Z.sub_0_r in *. done.
Qed.

Lemma lineOffsets_locate_lines_witness :
  exists off,
    lineOffsetsFrom 0 (lineLengthsOf twoLines) !! 1%nat = Some off
    /\ 0 <= off
    /\ substring (Z.to_nat off) 49 twoLines
       = String.concat EmptyString (repeat "b"%string 49)
    /\ off + 49 <= Z.of_nat (String.length twoLines).
Proof.
  apply (lineOffsets_locate_lines twoLines 1
           (String.concat EmptyString (repeat "b"%string 49))).
  reflexivity.
Defined.

(** ** Repeated executions *)

(** X11. An execution listed twice counts twice in the lengths that
    [determineLengths] reports, but changes nothing in the attribution to
    sources, which tests each offset against every execution. *)
Theorem repeated_execution {NetworkRequest : Type}
    (estimateTransferSize : NetworkRequest -> Z -> string -> number)
    (networkRecord : NetworkRequest) (w : WasteData) (wasteData : list WasteData)
    (bundle : Bundle) (lengths lengths' : Lengths) :
  createSourceWastedBytes (w :: w :: wasteData) bundle lengths
  = createSourceWastedBytes (w :: wasteData) bundle lengths'
  /\ content (determineLengths estimateTransferSize (w :: w :: wasteData) networkRecord)
     = contentLength w
       + content (determineLengths estimateTransferSize (w :: wasteData) networkRecord)
  /\ unused (determineLengths estimateTransferSize (w :: w :: wasteData) networkRecord)
     = unusedLength w
       + unused (determineLengths estimateTransferSize (w :: wasteData) networkRecord).
Proof.
  split_and!.
  - apply createSourceWastedBytes_same_test. intros offset. simpl.
    by destruct (unusedAt offset w).
  - simpl. by rewrite (sumContent_cons w (w :: wasteData)).
  - simpl. by rewrite (sumUnused_cons w (w :: wasteData)).
Qed.

(** ** Unused bytes and the lengths of the unexecuted ranges *)

Lemma countUnused_cons (x : Z) (a : list Z) :
  countUnused (x :: a) = (if x =? 1 then 1 else 0) + countUnused a.
Proof.
  unfold countUnused. rewrite filter_cons.
  destruct (Z.eqb_spec x 1); case_decide; simpl; lia.
Qed.

Lemma countUnused_app (a b : list Z) :
  countUnused (a ++ b) = countUnused a + countUnused b.
Proof. unfold countUnused. rewrite filter_app, length_app. lia. Qed.

Lemma countUnused_make (n : Z) : countUnused (Uint8Array.make n) = 0.
Proof.
  unfold Uint8Array.make. induction (Z.to_nat n) as [|k IH]; [done|].
  cbn [replicate]. rewrite countUnused_cons, IH. done.
Qed.

Lemma countUnused_set (a : list Z) (i : Z) :
  0 <= i < Z.of_nat (length a) ->
  countUnused (Uint8Array.set a i 1)
  = countUnused a + if fresh a i then 1 else 0.
Proof.
  intros Hi. unfold fresh, Uint8Array.set, Uint8Array.get.
  destruct (Z.leb_spec 0 i); [|lia].
  destruct (lookup_lt_is_Some_2 a (Z.to_nat i) ltac:(lia)) as [y Hy].
  rewrite Hy, insert_take_drop by lia.
  rewrite <- (take_drop_middle a (Z.to_nat i) y Hy) at 3.
  rewrite !countUnused_app, !countUnused_cons.
  destruct (y =? 1); simpl; lia.
Qed.

Lemma fresh_set_other (a : list Z) (i k : Z) :
  i <> k -> fresh (Uint8Array.set a i 1) k = fresh a k.
Proof.
  intros Hne. unfold fresh. rewrite get_set.
  destruct (Z.eqb_spec i k); [done|]. done.
Qed.

Lemma countUnused_setAll (n : nat) (lo : Z) (a : list Z) :
  0 <= lo -> lo + Z.of_nat n <= Z.of_nat (length a) ->
  countUnused (fold_left (fun a i => Uint8Array.set a i 1) (seqZ' lo n) a)
  = countUnused a + Z.of_nat (length (List.filter (fresh a) (seqZ' lo n))).
Proof.
  revert lo a. induction n as [|n IH]; intros lo a Hlo Hhi; [simpl; lia|].
  rewrite seqZ'_S. cbn [fold_left List.filter].
  rewrite IH by (rewrite ?length_set; lia).
  rewrite countUnused_set by lia.
  rewrite (List.filter_ext_in (fresh (Uint8Array.set a lo 1)) (fresh a)).
  - destruct (fresh a lo); cbn [length]; lia.
  - intros k Hk. apply fresh_set_other.
    unfold seqZ' in Hk. apply in_map_iff in Hk as (j & <- & _). lia.
Qed.

Lemma countUnused_markRange (a : list Z) (r : Range) :
  0 <= startOffset r <= endOffset r -> endOffset r <= Z.of_nat (length a) ->
  countUnused (markRange a r) <= countUnused a + unexecutedLength r
  /\ ((forall k, startOffset r <= k < endOffset r -> fresh a k = true) ->
      countUnused (markRange a r) = countUnused a + unexecutedLength r).
Proof.
  intros Hv He. unfold markRange, unexecutedLength, upto.
  destruct (count r =? 0); [|split; [lia|intros _; lia]].
  rewrite countUnused_setAll by lia.
  set (cols := seqZ' (startOffset r) (Z.to_nat (endOffset r - startOffset r))).
  assert (Hlen : Z.of_nat (length cols) = endOffset r - startOffset r).
  { subst cols. unfold seqZ'. rewrite length_map, length_seq. lia. }
  pose proof (List.filter_length_le (fresh a) cols) as Hle.
  split; [lia|]. intros Hfresh.
  rewrite (List.forallb_filter_id (fresh a) cols); [lia|].
  apply forallb_forall. intros k Hk. apply Hfresh.
  subst cols. unfold seqZ' in Hk. apply in_map_iff in Hk as (j & <- & Hj).
  apply in_seq in Hj. lia.
Qed.

Lemma countUnused_markRanges (rs : list Range) (a : list Z) :
  (forall r, In r rs ->
     0 <= startOffset r <= endOffset r /\ endOffset r <= Z.of_nat (length a)) ->
  countUnused (fold_left markRange rs a) <= countUnused a + unexecutedTotal rs
  /\ (ForallOrdPairs (fun r r' => count r = 0 -> count r' = 0 -> apart r r') rs ->
      (forall r, In r rs -> count r = 0 ->
         forall k, startOffset r <= k < endOffset r -> fresh a k = true) ->
      countUnused (fold_left markRange rs a) = countUnused a + unexecutedTotal rs).
Proof.
  revert a. induction rs as [|r rs IH]; intros a Hv.
  { unfold unexecutedTotal. simpl. split; [lia|intros _ _; lia]. }
  destruct (Hv r ltac:(by left)) as [Hr He].
  destruct (countUnused_markRange a r Hr He) as [Hle Heq].
  destruct (IH (markRange a r)) as [IHle IHeq].
  { intros r' Hr'. rewrite length_markRange. apply Hv. by right. }
  change (unexecutedTotal (r :: rs)) with (unexecutedLength r + unexecutedTotal rs).
  cbn [fold_left]. split; [lia|]. intros Hapart Hfresh.
  inversion Hapart as [|? ? Hhead Htail]; subst.
  rewrite IHeq.
  - destruct (Z.eq_dec (count r) 0) as [Hc|Hc].
    + rewrite Heq; [lia|]. intros k Hk. by apply (Hfresh r); [left| |].
    + unfold markRange, unexecutedLength.
      destruct (Z.eqb_spec (count r) 0); [done|lia].
  - done.
  - intros r' Hr' Hc' k Hk.
    destruct (Hv r' ltac:(by right)) as [Hr'v He'].
    unfold fresh. rewrite get_markRange by lia.
    assert (Hout : inUnexecuted k r = false).
    { unfold inUnexecuted. destruct (Z.eqb_spec (count r) 0) as [Hc|_]; [|done].
      rewrite List.Forall_forall in Hhead.
      destruct (Hhead r' Hr' Hc Hc') as [Hap|Hap]; simpl.
      - apply andb_false_iff. right. apply Z.ltb_ge. lia.
      - apply andb_false_iff. left. apply Z.leb_gt. lia. }
    rewrite Hout. by apply (Hfresh r'); [right| |].
Qed.

Lemma unusedLength_countUnused (c : ScriptCoverage) :
  unusedLength (computeWaste c) = countUnused (unusedByIndex (computeWaste c)).
Proof.
  change (unusedLength (computeWaste c))
    with (fold_left (fun unused x => unused + x) (unusedByIndex (computeWaste c)) 0).
  rewrite sum_bits by apply bits_markRanges. lia.
Qed.

(** X12. For a coverage with valid offsets, the unused length is at most the
    sum of the lengths of the ranges with count 0, and it is that sum when
    no two of these ranges overlap; bytes in several unexecuted ranges (a
    range nested in another) are counted once. *)
Theorem unused_bytes_of_ranges (c : ScriptCoverage) :
  structurallyValid c ->
  unusedLength (computeWaste c) <= unexecutedTotal (allRanges c)
  /\ (ForallOrdPairs (fun r r' => count r = 0 -> count r' = 0 -> apart r r')
        (allRanges c) ->
      unusedLength (computeWaste c) = unexecutedTotal (allRanges c)).
Proof.
  intros Hvalid. rewrite unusedLength_countUnused, unusedByIndex_flat.
  assert (Hnn : 0 <= contentLength (computeWaste c))
    by (rewrite maximumEndOffset_flat; apply Math_max_lower).
  destruct (countUnused_markRanges (allRanges c)
              (Uint8Array.make (contentLength (computeWaste c)))) as [Hle Heq].
  { intros r Hr. unfold structurallyValid in Hvalid.
    rewrite List.Forall_forall in Hvalid. split; [by apply Hvalid|].
    rewrite length_make, maximumEndOffset_flat.
    pose proof (Math_max_upper (map endOffset (allRanges c)) 0 (endOffset r)
                  ltac:(by apply in_map)). lia. }
  rewrite countUnused_make in Hle, Heq. split; [lia|].
  intros Hapart. rewrite Heq; [lia|done|].
  intros r Hr Hc k Hk. unfold fresh. rewrite get_make; [done|].
  unfold structurallyValid in Hvalid. rewrite List.Forall_forall in Hvalid.
  specialize (Hvalid r Hr). unfold validRange in Hvalid.
  rewrite maximumEndOffset_flat.
  pose proof (Math_max_upper (map endOffset (allRanges c)) 0 (endOffset r)
                ltac:(by apply in_map)). lia.
Qed.

Lemma unused_bytes_of_ranges_witness :
  unusedLength
    (computeWaste (mkScript [mkFunction [mkRange 0 10 1; mkRange 2 5 0];
                             mkFunction [mkRange 10 14 0]]))
  = 7.
Proof.
  apply (unused_bytes_of_ranges
           (mkScript [mkFunction [mkRange 0 10 1; mkRange 2 5 0];
                      mkFunction [mkRange 10 14 0]])).
  - repeat constructor; simpl; lia.
  - repeat constructor; simpl; intros; try discriminate; unfold apart; simpl; lia.
Defined.
